(** * AI job recommender: the matching pipeline of [recommender.py]

    A shallow embedding of the resume/job matching code and the proofs of
    its specified properties.

    Conventions of the embedding.
    - A Python [str] is a Rocq [string]; a character [ascii] is read as the
      Unicode code point of the same number (the Latin-1 range 0..255), on
      which [str.lower], [str.isspace] and the classes [\d] and [\s] of
      [re] are given exactly below.
    - A Python [set] of strings is a [gset string]; [list(set(xs))] is
      [elements] of that set (its order is as unspecified as Python's).
    - A Python [float] is the rational number it denotes; every float
      operation is the exact operation followed by rounding to binary64
      (module [F64]).
    - The sentence-embedding model, scikit-learn's [normalize], the FAISS
      index and [pickle] are external: they are the fields of the class
      [Backend]. *)

From Stdlib Require Import ZArith QArith Qround Qabs Qpower Lqa.
From Stdlib Require Import Ascii String List Bool Lia.
From stdpp Require Import base gmap sets list strings.

Local Open Scope string_scope.

(** ** Python string primitives *)

Module PyStr.

Definition code (c : ascii) : nat := nat_of_ascii c.

(** [str.lower] on one code point below 256: 'A'..'Z' and the Latin-1
    capitals U+00C0..U+00DE (without the sign U+00D7) move up by 32. *)
Definition lower_char (c : ascii) : ascii :=
  let n := code c in
  if ((65 <=? n) && (n <=? 90)
      || (192 <=? n) && (n <=? 222) && negb (n =? 215))%nat
  then ascii_of_nat (n + 32) else c.

Fixpoint lower (s : string) : string :=
  match s with
  | EmptyString => EmptyString
  | String c r => String (lower_char c) (lower r)
  end.

(** [str.isspace] on one code point below 256: TAB..CR, the separators
    U+001C..U+001F, the space, NEL (U+0085) and the no-break space. *)
Definition isspace (c : ascii) : bool :=
  let n := code c in
  ((9 <=? n) && (n <=? 13) || (28 <=? n) && (n <=? 32)
   || (n =? 133) || (n =? 160))%nat.

Definition isdigit (c : ascii) : bool :=
  let n := code c in ((48 <=? n) && (n <=? 57))%nat.

Fixpoint lstrip (s : string) : string :=
  match s with
  | EmptyString => EmptyString
  | String c r => if isspace c then lstrip r else s
  end.

Fixpoint rstrip (s : string) : string :=
  match s with
  | EmptyString => EmptyString
  | String c r =>
      match rstrip r with
      | EmptyString => if isspace c then EmptyString else String c EmptyString
      | r' => String c r'
      end
  end.

(** [s.strip()] *)
Definition strip (s : string) : string := rstrip (lstrip s).

(** [s.split(sep)] for a one-character separator: never an empty list. *)
Fixpoint split (sep : ascii) (s : string) : list string :=
  match s with
  | EmptyString => [EmptyString]
  | String c r =>
      if Ascii.eqb c sep then EmptyString :: split sep r
      else match split sep r with
           | h :: t => String c h :: t
           | [] => [String c EmptyString]
           end
  end.

Fixpoint startswith (p s : string) : bool :=
  match p, s with
  | EmptyString, _ => true
  | String a p', String b s' => Ascii.eqb a b && startswith p' s'
  | String _ _, EmptyString => false
  end.

(** [needle in hay] *)
Fixpoint contains (needle hay : string) : bool :=
  startswith needle hay
  || match hay with
     | EmptyString => false
     | String _ r => contains needle r
     end.

(** [not s] for a string: true exactly on the empty string. *)
Definition falsy (s : string) : bool :=
  match s with EmptyString => true | _ => false end.

(** The value of a string of decimal digits, most significant first. *)
Definition digit_val (c : ascii) : Z := Z.of_nat (code c) - 48.

Fixpoint int_acc (acc : Z) (s : string) : Z :=
  match s with
  | EmptyString => acc
  | String c r => int_acc (10 * acc + digit_val c) r
  end.

(** [sys.int_max_str_digits], as CPython sets it when nothing configures
    it. *)
Definition int_max_str_digits : nat := 4300.

(** [int(s)] for a string of decimal digits.  CPython refuses a string of
    more than [sys.int_max_str_digits] digits, leading zeros counted, with
    [ValueError]: [None] here. *)
Definition int (s : string) : option Z :=
  if (int_max_str_digits <? String.length s)%nat then None
  else Some (int_acc 0 s).

(** [s * n] *)
Fixpoint mul (s : string) (n : nat) : string :=
  match n with
  | O => EmptyString
  | S n' => String.append s (mul s n')
  end.

End PyStr.

(** ** Skill and keyword extractor *)

Definition COMMON_SKILLS : list string :=
  [ "python"; "java"; "javascript"; "typescript"; "c++"; "c#"; "swift"; "kotlin";
    "react"; "angular"; "vue"; "node.js"; "flask"; "django"; "spring";
    "sql"; "mysql"; "postgresql"; "mongodb"; "redis"; "oracle";
    "aws"; "azure"; "gcp"; "docker"; "kubernetes"; "terraform"; "jenkins";
    "machine learning"; "deep learning"; "nlp"; "computer vision";
    "tensorflow"; "pytorch"; "scikit-learn"; "pandas"; "numpy";
    "git"; "linux"; "rest api"; "graphql"; "microservices";
    "spark"; "kafka"; "airflow"; "tableau"; "power bi";
    "html"; "css"; "agile"; "scrum"; "devops"; "ci/cd";
    "blockchain"; "solidity"; "web3"; "ethereum";
    "data analysis"; "statistics"; "excel"; "r" ].

(** [found = [skill for skill in COMMON_SKILLS if skill in text_lower]] *)
Definition found_skills (text : string) : list string :=
  let text_lower := PyStr.lower text in
  List.filter (fun skill => PyStr.contains skill text_lower) COMMON_SKILLS.

Definition extract_skills_from_text (text : string) : list string :=
  let found := found_skills text in
  elements (list_to_set found : gset string).

(** ** The fragment of Python's [re] used by the experience patterns

    A backtracking matcher in continuation-passing style: greedy
    repetition of a character class, greedy optional parts, literals,
    sequencing and capture group 1. *)

Module Re.

Inductive re : Type :=
| Eps
| Cls (p : ascii -> bool)              (* one character of a class *)
| Rep (p : ascii -> bool) (min : nat)  (* greedy: star (min 0), plus (min 1) *)
| Opt (r : re)                         (* greedy [r?] *)
| Cat (r1 r2 : re)
| Grp (r : re).                        (* the capturing group [( r )] *)

Definition Lit (c : ascii) : re := Cls (Ascii.eqb c).

Fixpoint Str (s : string) : re :=
  match s with
  | EmptyString => Eps
  | String c r => Cat (Lit c) (Str r)
  end.

Fixpoint Seq (rs : list re) : re :=
  match rs with
  | [] => Eps
  | r :: rs' => Cat r (Seq rs')
  end.

(** The text consumed between [s] and its suffix [rest]. *)
Definition consumed (s rest : string) : string :=
  String.substring 0 (String.length s - String.length rest) s.

(** A continuation gets the rest of the text and group 1 so far. *)
Definition cont : Type := string -> option string -> option (option string).

(** Greedy repetition: take one more character when possible, and come
    back to stopping here when the continuation fails further on. *)
Fixpoint rep (p : ascii -> bool) (min : nat) (s : string)
         (g : option string) (k : cont) : option (option string) :=
  let stop := match min with O => k s g | S _ => None end in
  match s with
  | EmptyString => stop
  | String c s' =>
      if p c then
        match rep p (Nat.pred min) s' g k with
        | Some m => Some m
        | None => stop
        end
      else stop
  end.

Fixpoint rmatch (r : re) (s : string) (g : option string) (k : cont)
  : option (option string) :=
  match r with
  | Eps => k s g
  | Cls p =>
      match s with
      | String c s' => if p c then k s' g else None
      | EmptyString => None
      end
  | Rep p min => rep p min s g k
  | Opt r' =>
      match rmatch r' s g k with
      | Some m => Some m
      | None => k s g
      end
  | Cat r1 r2 => rmatch r1 s g (fun s' g' => rmatch r2 s' g' k)
  | Grp r' => rmatch r' s g (fun s' _ => k s' (Some (consumed s s')))
  end.

(** [re.match(r, s)]: the match object is represented by its group 1. *)
Definition match_here (r : re) (s : string) : option (option string) :=
  rmatch r s None (fun _ g => Some g).

(** [re.search(r, s)]: the match at the leftmost position that has one. *)
Fixpoint search (r : re) (s : string) : option (option string) :=
  match match_here r s with
  | Some m => Some m
  | None =>
      match s with
      | EmptyString => None
      | String _ s' => search r s'
      end
  end.

(** [match.group(1)], a string whenever the group took part in the match
    (always, for a pattern with the group outside its optional parts). *)
Definition group1 (m : option string) : string := default EmptyString m.

End Re.

Import Re.

(** The classes [\d], [\s] and [[:\s]]. *)
Definition cls_d : ascii -> bool := PyStr.isdigit.
Definition cls_s : ascii -> bool := PyStr.isspace.
Definition cls_colon_s (c : ascii) : bool := Ascii.eqb c ":"%char || PyStr.isspace c.

(** First pattern, piece by piece:
    [(\d+)] [\+?] [\s*] [year] [s?] [\s*] [(?: of \s* )?] [experience]. *)
Definition pattern_years_experience : re :=
  Seq [ Grp (Rep cls_d 1); Opt (Lit "+"%char); Rep cls_s 0; Str "year"; Opt (Lit "s"%char);
        Rep cls_s 0; Opt (Cat (Str "of") (Rep cls_s 0)); Str "experience" ].

(** Second pattern, piece by piece:
    [experience] [[:\s]+] [(\d+)] [\+?] [\s*] [year] [s?]. *)
Definition pattern_experience_years : re :=
  Seq [ Str "experience"; Rep cls_colon_s 1; Grp (Rep cls_d 1); Opt (Lit "+"%char);
        Rep cls_s 0; Str "year"; Opt (Lit "s"%char) ].

(** Third pattern, piece by piece:
    [(\d+)] [\s*] [yr] [s?] [\s*] [(?: of \s* )?] [(?: work \s* )?]
    [experience]. *)
Definition pattern_yrs_experience : re :=
  Seq [ Grp (Rep cls_d 1); Rep cls_s 0; Str "yr"; Opt (Lit "s"%char); Rep cls_s 0;
        Opt (Cat (Str "of") (Rep cls_s 0)); Opt (Cat (Str "work") (Rep cls_s 0));
        Str "experience" ].

Definition patterns : list re :=
  [ pattern_years_experience; pattern_experience_years; pattern_yrs_experience ].

(** The [for pattern in patterns] loop of [extract_experience_years];
    [None] when [int] raises [ValueError]. *)
Fixpoint first_match (ps : list re) (text_lower : string) : option Z :=
  match ps with
  | [] => Some 0%Z   (* unknown *)
  | pattern :: ps' =>
      match search pattern text_lower with
      | Some m => PyStr.int (group1 m)
      | None => first_match ps' text_lower
      end
  end.

Definition extract_experience_years (text : string) : option Z :=
  first_match patterns (PyStr.lower text).

(** ** Job data loader *)

(** One line of the CSV as [pd.read_csv] delivers it: a text cell is
    [None] when pandas reads it as missing (NaN). *)
Record CsvRow : Type := mkCsvRow {
  job_id : Z;
  title : option string;
  company : option string;
  location : option string;
  description : option string;
  skills : option string;
  experience_level : option string;
  salary_range : option string
}.

(** A row of [jobs_df]: the CSV columns, unchanged, and [combined_text]. *)
Record Job : Type := mkJob {
  csv : CsvRow;
  combined_text : string
}.

(** [series.fillna(v)] on one cell *)
Definition fillna (v : string) (cell : option string) : string := default v cell.

Definition combined_text_of (r : CsvRow) : string :=
  fillna "" (title r) ++ ". " ++
  fillna "" (description r) ++ ". " ++
  "Required skills: " ++ fillna "" (skills r) ++ ". " ++
  "Level: " ++ fillna "" (experience_level r).

(** [load_jobs], on the rows read from the CSV file. *)
Definition load_jobs (rows : list CsvRow) : list Job :=
  List.map (fun r => mkJob r (combined_text_of r)) rows.

(** The template of the specification, with its placeholders in braces,
    and its instantiation: text outside braces is copied, a placeholder is
    replaced by the value of the field it names. *)
Definition combined_template : string :=
  "{title}. {description}. Required skills: {skills}. Level: {experience_level}".

Fixpoint render (env : string -> string) (name : option string) (tpl : string)
  : string :=
  match tpl with
  | EmptyString => EmptyString
  | String c rest =>
      match name with
      | None =>
          if Ascii.eqb c "{" then render env (Some EmptyString) rest
          else String c (render env None rest)
      | Some n =>
          if Ascii.eqb c "}" then env n ++ render env None rest
          else render env (Some (n ++ String c EmptyString)) rest
      end
  end.

(** The value of a named field of a row, the empty string when missing. *)
Definition field (r : CsvRow) (name : string) : string :=
  if String.eqb name "title" then fillna "" (title r)
  else if String.eqb name "description" then fillna "" (description r)
  else if String.eqb name "skills" then fillna "" (skills r)
  else if String.eqb name "experience_level" then fillna "" (experience_level r)
  else if String.eqb name "company" then fillna "" (company r)
  else if String.eqb name "location" then fillna "" (location r)
  else if String.eqb name "salary_range" then fillna "" (salary_range r)
  else "".

(** ** Resume text extraction *)

Module OsPath.

(** [s.rfind(c)]: the last index of [c] in [s], or -1. *)
Fixpoint rfind_from (c : ascii) (s : string) (i : Z) (last : Z) : Z :=
  match s with
  | EmptyString => last
  | String a r => rfind_from c r (i + 1) (if Ascii.eqb a c then i else last)
  end.

Definition rfind (c : ascii) (s : string) : Z := rfind_from c s 0 (-1).

Definition slice_to (s : string) (i : Z) : string :=
  String.substring 0 (Z.to_nat i) s.
Definition slice_from (s : string) (i : Z) : string :=
  String.substring (Z.to_nat i) (String.length s - Z.to_nat i) s.

(** The scan of [genericpath._splitext] over the leading dots of the file
    name: is there a character other than a dot in [p[i:dot]]? *)
Fixpoint has_name (s : string) (n : nat) : bool :=
  match n, s with
  | S n', String a r => if Ascii.eqb a "." then has_name r n' else true
  | _, _ => false
  end.

(** [os.path.splitext(p)] (POSIX) *)
Definition splitext (p : string) : string * string :=
  let sepIndex := rfind "/" p in
  let dotIndex := rfind "." p in
  if (sepIndex <? dotIndex)%Z
     && has_name (slice_from p (sepIndex + 1)) (Z.to_nat (dotIndex - (sepIndex + 1)))
  then (slice_to p dotIndex, slice_from p dotIndex)
  else (p, EmptyString).

End OsPath.

(** What the file system holds for the readers: opening a PDF with
    [fitz.open] fails ([None]) or gives the pages, each page giving its
    text or failing when it is read; [open(path).read()] gives the text of
    a file or fails. *)
Record Files : Type := mkFiles {
  fitz_open : string -> option (list (option string));
  read_text : string -> option string
}.

(** The [try] block of [extract_text_from_pdf]: [text] when the block is
    left, at its end or at the first page that raises. *)
Fixpoint read_pages (pages : list (option string)) (text : string) : string :=
  match pages with
  | [] => text
  | Some page_text :: rest => read_pages rest (text ++ page_text)
  | None :: _ => text
  end.

Definition extract_text_from_pdf (fs : Files) (pdf_path : string) : string :=
  let text :=
    match fitz_open fs pdf_path with
    | Some doc => read_pages doc ""
    | None => ""
    end in
  PyStr.strip text.

Definition extract_text_from_txt (fs : Files) (txt_path : string) : string :=
  match read_text fs txt_path with
  | Some content => PyStr.strip content
  | None => ""
  end.

Definition extract_resume_text (fs : Files) (file_path : string) : string :=
  let ext := PyStr.lower (snd (OsPath.splitext file_path)) in
  if String.eqb ext ".pdf" then extract_text_from_pdf fs file_path
  else if existsb (String.eqb ext) [".txt"; ".text"] then extract_text_from_txt fs file_path
  else "".

(** ** Python floats

    A finite [float] is the rational it denotes.  Every operation is the
    exact rational operation followed by [rnd], rounding to the nearest
    binary64 number, ties to even: 53 significant bits, least exponent
    -1074 (gradual underflow).  The exponent is not bounded above, no
    quantity of this program comes near 2^1024; infinities, NaN and the
    sign of zero are not represented. *)

Module F64.

Local Open Scope Q_scope.

Definition prec : Z := 53.
Definition emin : Z := -1074.

(** Round to the nearest integer, ties to the even one. *)
Definition rhe (q : Q) : Z :=
  let f := Qfloor q in
  match Qcompare (q - inject_Z f) (1 # 2) with
  | Lt => f
  | Gt => (f + 1)%Z
  | Eq => if Z.even f then f else (f + 1)%Z
  end.

(** The magnitude of [q <> 0]: the [m] with [2^(m-1) <= |q| < 2^m]. *)
Definition mag (q : Q) : Z :=
  let m0 := (Z.log2 (Z.abs (Qnum q)) - Z.log2 (Zpos (Qden q)))%Z in
  if Qle_bool (2 ^ m0) (Qabs q) then (m0 + 1)%Z else m0.

(** The exponent of the last place of the binary64 numbers next to [q]. *)
Definition ulp_exp (q : Q) : Z := Z.max (mag q - prec) emin.

(** The multiple of [2^e] nearest to [q], ties to the even multiple. *)
Definition at_exp (e : Z) (q : Q) : Q := inject_Z (rhe (q / 2 ^ e)) * 2 ^ e.

Definition rnd (q : Q) : Q :=
  if Qeq_bool q 0 then 0 else Qred (at_exp (ulp_exp q) q).

(** [float(n)] for an [int] *)
Definition of_int (n : Z) : Q := rnd (inject_Z n).

(** [a / b] for two [int]s, [b <> 0]: the quotient, correctly rounded. *)
Definition truediv (a b : Z) : Q := rnd (inject_Z a / inject_Z b).

(** [x * y] for two floats *)
Definition mul (x y : Q) : Q := rnd (x * y).

(** [round(x, ndigits)] for a float and [ndigits >= 0]: the decimal with
    [ndigits] places nearest to the exact value of [x] (ties to even),
    then the float nearest to that decimal. *)
Definition round (x : Q) (ndigits : nat) : Q :=
  let p := inject_Z (10 ^ Z.of_nat ndigits) in
  rnd (inject_Z (rhe (x * p)) / p).

End F64.

(** A failure while the text of a resume file is extracted: the PDF
    cannot be opened or one of its pages cannot be read; the text file
    cannot be read. *)
Definition extraction_fails (fs : Files) (file_path : string) : Prop :=
  let ext := PyStr.lower (snd (OsPath.splitext file_path)) in
  (ext = ".pdf"
   /\ match fitz_open fs file_path with
      | Some doc => None ∈ doc
      | None => True
      end)
  \/ ((ext = ".txt" \/ ext = ".text") /\ read_text fs file_path = None).

(** ** Exceptions, the world and the monad of the engine *)

Inductive exn : Type :=
| IndexError        (* [jobs_df.iloc[idx]] out of bounds *)
| LibraryError      (* raised inside FAISS *)
| UnpicklingError.  (* [pickle.load] on a file it cannot read *)

Inductive result (A : Type) : Type :=
| Ok (a : A)
| Raise (e : exn).
Arguments Ok {A} a.
Arguments Raise {A} e.

(** The external collaborators of the engine.  [matrix] is a numpy array
    of row vectors, [index] a [faiss.IndexFlatIP], [blob] the content of a
    pickle file.  [index_search ix q k] is [ix.search(q, k)] for a query
    of one row: row 0 of the score array and row 0 of the label array. *)
Class Backend : Type := {
  matrix : Type;
  index : Type;
  blob : Type;
  model_encode : list string -> matrix;
  normalize : matrix -> matrix;
  astype_float32 : matrix -> matrix;
  shape1 : matrix -> nat;
  IndexFlatIP : nat -> index;
  index_add : index -> matrix -> index;
  index_search : index -> matrix -> Z -> result (list Q * list Z);
  pickle_dumps : index * matrix -> blob;
  pickle_loads : blob -> option (index * matrix)
}.

Section Engine.

Context `{B : Backend}.

(** A call that leaves the process. *)
Inductive event : Type :=
| EvEncode (texts : list string)
| EvSearch (query : matrix) (k : Z).

(** The files of the working directory, by path, and the calls made so
    far (latest first). *)
Record World : Type := mkWorld {
  files : gmap string blob;
  calls : list event
}.

Definition M (A : Type) : Type := World -> result A * World.

Definition ret {A} (a : A) : M A := fun w => (Ok a, w).

Definition bind {A C} (f : A -> M C) (m : M A) : M C :=
  fun w => match m w with
           | (Ok a, w') => f a w'
           | (Raise e, w') => (Raise e, w')
           end.

#[global] Instance M_ret : MRet M := @ret.
#[global] Instance M_bind : MBind M := @bind.

Definition raise {A} (e : exn) : M A := fun w => (Raise e, w).

Definition lift {A} (r : result A) : M A := fun w => (r, w).

Definition emit (e : event) : M unit :=
  fun w => (Ok tt, mkWorld (files w) (e :: calls w)).

Definition get_files : M (gmap string blob) := fun w => (Ok (files w), w).

Definition put_files (fs : gmap string blob) : M unit :=
  fun w => (Ok tt, mkWorld fs (calls w)).

End Engine.

(** ** The recommendation engine *)

(** One entry of the list [recommend] returns. *)
Module Rec.
Record t : Type := mk {
  rank : nat;
  job_id : Z;
  title : option string;
  company : option string;
  location : option string;
  description : option string;
  skills : option string;
  experience_level : option string;
  salary_range : option string;
  match_score : Q;
  matched_skills : list string;
  skill_match_pct : Q
}.
End Rec.

(** [str(cell)]: a missing cell is the float NaN, printed "nan". *)
Definition py_str (cell : option string) : string := default "nan" cell.

(** [set(s.strip().lower() for s in str(cell).split(","))] *)
Definition job_skills_of (cell : option string) : gset string :=
  list_to_set (List.map (fun s => PyStr.lower (PyStr.strip s))
                        (PyStr.split "," (py_str cell))).

(** [df.iloc[idx]]: a negative position counts from the end. *)
Definition iloc {A} (df : list A) (idx : Z) : result A :=
  let n := Z.of_nat (length df) in
  let i := if (idx <? 0)%Z then (idx + n)%Z else idx in
  if ((0 <=? i) && (i <? n))%Z then
    match df !! Z.to_nat i with
    | Some row => Ok row
    | None => Raise IndexError
    end
  else Raise IndexError.

(** [enumerate(xs, start)] *)
Fixpoint enumerate {A} (start : nat) (xs : list A) : list (nat * A) :=
  match xs with
  | [] => []
  | x :: r => (start, x) :: enumerate (S start) r
  end.

(** [zip(indices[0], scores[0])] *)
Definition py_zip {A C} (xs : list A) (ys : list C) : list (A * C) := zip xs ys.

Section Recommender.

Context `{B : Backend}.

Record JobRecommender : Type := mkJobRecommender {
  jobs_df : list Job;
  self_index : index;
  job_embeddings : matrix
}.

Definition INDEX_PATH : string := "data/faiss_index.pkl".

(** The dictionary appended to [results] for one hit. *)
Definition make_result (resume_text : string) (rank : nat) (row : Job)
           (score : Q) : Rec.t :=
  let resume_skills : gset string := list_to_set (extract_skills_from_text resume_text) in
  let job_skills := job_skills_of (skills (csv row)) in
  let matched := elements (resume_skills ∩ job_skills) in
  Rec.mk rank
         (job_id (csv row))
         (title (csv row))
         (company (csv row))
         (location (csv row))
         (description (csv row))
         (skills (csv row))
         (experience_level (csv row))
         (salary_range (csv row))
         (F64.round (F64.mul score 100) 1)
         matched
         (F64.round
            (F64.mul (F64.truediv (Z.of_nat (length matched))
                                  (Z.of_nat (Nat.max (size job_skills) 1)))
                     100) 1).

(** The [for rank, (idx, score) in enumerate(...)] loop. *)
Fixpoint recommend_loop (self : JobRecommender) (resume_text : string)
         (hits : list (nat * (Z * Q))) (results : list Rec.t)
  : result (list Rec.t) :=
  match hits with
  | [] => Ok results
  | (rank, (idx, score)) :: rest =>
      if (idx =? -1)%Z then recommend_loop self resume_text rest results
      else
        match iloc (jobs_df self) idx with
        | Raise e => Raise e
        | Ok row =>
            recommend_loop self resume_text rest
                           (results ++ [make_result resume_text rank row score])
        end
  end.

(** The query matrix of a resume: encoded, normalized, as float32. *)
Definition resume_query (resume_text : string) : matrix :=
  astype_float32 (normalize (model_encode [resume_text])).

Definition recommend (self : JobRecommender) (resume_text : string)
           (top_k : Z) : M (list Rec.t) :=
  if PyStr.falsy (PyStr.strip resume_text) then ret []
  else
    emit (EvEncode [resume_text]) ;;
    let resume_vec := resume_query resume_text in
    emit (EvSearch resume_vec top_k) ;;
    found ← lift (index_search (self_index self) resume_vec top_k) ;
    let '(scores0, indices0) := found in
    lift (recommend_loop self resume_text
                         (enumerate 1 (py_zip indices0 scores0)) []).

Definition recommend_from_text_input (self : JobRecommender)
           (user_text : string) (top_k : Z) : M (list Rec.t) :=
  recommend self user_text top_k.

Definition recommend_from_file (fs : Files) (self : JobRecommender)
           (file_path : string) (top_k : Z) : M (list Rec.t) :=
  let text := extract_resume_text fs file_path in
  if PyStr.falsy text then ret []
  else recommend self text top_k.

(** *** Index management *)

(** [_build_index]: encode the catalog, fill a fresh index, and write
    the cache file.  The result is the engine after the call. *)
Definition _build_index (jobs : list Job) : M JobRecommender :=
  let texts := List.map combined_text jobs in
  emit (EvEncode texts) ;;
  let embeddings := normalize (model_encode texts) in
  let dim := shape1 embeddings in
  let ix := index_add (IndexFlatIP dim) (astype_float32 embeddings) in
  fs ← get_files ;
  put_files (<[INDEX_PATH := pickle_dumps (ix, embeddings)]> fs) ;;
  ret (mkJobRecommender jobs ix embeddings).

(** [_build_or_load_index], on the rows of the CSV file at [JOBS_PATH]. *)
Definition _build_or_load_index (rows : list CsvRow) : M JobRecommender :=
  let jobs := load_jobs rows in
  fs ← get_files ;
  match fs !! INDEX_PATH with
  | Some content =>
      match pickle_loads content with
      | Some (ix, embeddings) => ret (mkJobRecommender jobs ix embeddings)
      | None => raise UnpicklingError
      end
  | None => _build_index jobs
  end.

(** [rebuild_index] *)
Definition rebuild_index (self : JobRecommender) : M JobRecommender :=
  fs ← get_files ;
  (if decide (is_Some (fs !! INDEX_PATH))
   then put_files (delete INDEX_PATH fs) else ret tt) ;;
  _build_index (jobs_df self).

End Recommender.

(** ** The contract of the index search

    What the engine relies on from [index.search(q, k)]: a score and a
    label for each of at most [k] hits, the stored vectors first, by
    non-increasing score, and label -1 only as padding after them. *)

Fixpoint padded (labels : list Z) : bool :=
  match labels with
  | [] => true
  | i :: rest =>
      if (i =? -1)%Z then forallb (fun j => (j =? -1)%Z) rest else padded rest
  end.

Fixpoint non_increasing (l : list Q) : bool :=
  match l with
  | x :: rest =>
      match rest with
      | y :: _ => Qle_bool y x && non_increasing rest
      | [] => true
      end
  | [] => true
  end.

Definition valid_scores (scores : list Q) (labels : list Z) : list Q :=
  List.map snd (List.filter (fun h => negb (fst h =? -1)%Z) (py_zip labels scores)).

Definition hits_ok (k : Z) (scores : list Q) (labels : list Z) : bool :=
  (length scores =? length labels)%nat
  && (Z.of_nat (length labels) <=? k)%Z
  && padded labels
  && non_increasing (valid_scores scores labels).

(** ** A reference backend: bag-of-skills vectors and an exact flat index

    Small enough to run the engine on examples: a text is embedded as
    the vector that has 1/8 at the vocabulary entries it contains and 0
    elsewhere, the index keeps the rows it was given and scans them all,
    and the cache file is a list of integers. *)

Module Flat.

Local Open Scope Q_scope.

Definition embed (text : string) : list Q :=
  List.map (fun skill => if PyStr.contains skill (PyStr.lower text) then 1 # 8 else 0)
           COMMON_SKILLS.

Fixpoint dot (u v : list Q) : Q :=
  match u, v with
  | a :: u', b :: v' => a * b + dot u' v'
  | _, _ => 0
  end.

(** Insert a hit into a list kept by non-increasing score; among equal
    scores the earlier row stays first. *)
Fixpoint insert_hit (h : Q * Z) (l : list (Q * Z)) : list (Q * Z) :=
  match l with
  | [] => [h]
  | h' :: rest =>
      if Qle_bool (fst h') (fst h) then h :: l
      else h' :: insert_hit h rest
  end.

Fixpoint sort_hits (l : list (Q * Z)) : list (Q * Z) :=
  match l with
  | [] => []
  | h :: rest => insert_hit h (sort_hits rest)
  end.

Fixpoint number_rows (i : Z) (rows : list (list Q)) (q : list Q) : list (Q * Z) :=
  match rows with
  | [] => []
  | r :: rest => (Qred (dot q r), i) :: number_rows (i + 1) rest q
  end.

(** The score that goes with a padding label. *)
Definition lowest : Q := - inject_Z (2 ^ 128 - 2 ^ 104).

Definition search (rows : list (list Q)) (query : list (list Q)) (k : Z)
  : result (list Q * list Z) :=
  if (k <=? 0)%Z then Raise LibraryError
  else
    let q := List.hd [] query in
    let best := firstn (Z.to_nat k) (sort_hits (number_rows 0 rows q)) in
    let pad := Nat.sub (Z.to_nat k) (length best) in
    Ok ((List.map fst best ++ List.repeat lowest pad)%list,
        (List.map snd best ++ List.repeat (-1)%Z pad)%list).

(** The cache file: each matrix as its number of rows, then each row as
    its length and the numerator and denominator of each entry. *)
Definition dump_row (row : list Q) : list Z :=
  Z.of_nat (length row)
  :: List.concat (List.map (fun q => [Qnum q; Zpos (Qden q)]) row).

Definition dump_matrix (m : list (list Q)) : list Z :=
  Z.of_nat (length m) :: List.concat (List.map dump_row m).

Fixpoint load_row (n : nat) (l : list Z) : option (list Q * list Z) :=
  match n with
  | O => Some ([], l)
  | S n' =>
      match l with
      | a :: Zpos b :: rest =>
          match load_row n' rest with
          | Some (row, rest') => Some ((a # b) :: row, rest')
          | None => None
          end
      | _ => None
      end
  end.

Fixpoint load_rows (n : nat) (l : list Z) : option (list (list Q) * list Z) :=
  match n with
  | O => Some ([], l)
  | S n' =>
      match l with
      | c :: rest =>
          match load_row (Z.to_nat c) rest with
          | Some (row, rest') =>
              match load_rows n' rest' with
              | Some (m, rest'') => Some (row :: m, rest'')
              | None => None
              end
          | None => None
          end
      | [] => None
      end
  end.

Definition load_matrix (l : list Z) : option (list (list Q) * list Z) :=
  match l with
  | n :: rest => load_rows (Z.to_nat n) rest
  | [] => None
  end.

Definition dumps (saved : list (list Q) * list (list Q)) : list Z :=
  (dump_matrix (fst saved) ++ dump_matrix (snd saved))%list.

Definition loads (content : list Z) : option (list (list Q) * list (list Q)) :=
  match load_matrix content with
  | Some (ix, rest) =>
      match load_matrix rest with
      | Some (embeddings, []) => Some (ix, embeddings)
      | _ => None
      end
  | None => None
  end.

#[local] Instance backend : Backend := {|
  matrix := list (list Q);
  index := list (list Q);
  blob := list Z;
  model_encode := List.map embed;
  normalize := fun m => m;
  astype_float32 := fun m => m;
  shape1 := fun m => length (List.hd [] m);
  IndexFlatIP := fun _ => [];
  index_add := fun ix m => (ix ++ m)%list;
  index_search := search;
  pickle_dumps := dumps;
  pickle_loads := loads
|}.

(** A catalog of four jobs: one without a skills cell, and two that
    differ in company, location and salary only. *)
Definition rows : list CsvRow :=
  [ mkCsvRow 1 (Some "Backend Engineer") (Some "Acme") (Some "Remote")
             (Some "Build services") (Some "python, sql, docker")
             (Some "Mid") (Some "90k");
    mkCsvRow 2 (Some "Frontend Engineer") (Some "Acme") (Some "Berlin")
             (Some "Build pages") (Some "React, CSS , rust")
             (Some "Junior") None;
    mkCsvRow 3 (Some "Office Manager") None None
             (Some "Run the office") None None None;
    mkCsvRow 4 (Some "Backend Engineer") (Some "Globex") (Some "Austin")
             (Some "Build services") (Some "python, sql, docker")
             (Some "Mid") (Some "95k") ].

Definition world0 : World := mkWorld ∅ [].

(** The engine over that catalog, as [_build_index] leaves it. *)
Definition engine : JobRecommender :=
  let jobs := load_jobs rows in
  let embeddings := List.map embed (List.map combined_text jobs) in
  mkJobRecommender jobs embeddings embeddings.

Definition resume : string := "I have 3 years experience with python and docker".

(** The engine of a process started on a catalog cut down to its first
    row while the cache file still holds the index of all four. *)
Definition stale_engine : JobRecommender :=
  mkJobRecommender (load_jobs (firstn 1 rows)) (self_index engine) (job_embeddings engine).

(** The engine of a process whose cache file holds, for every job, the
    opposite of its vector: every score is the opposite of the one
    [engine] gives. *)
Definition opposed_engine : JobRecommender :=
  mkJobRecommender (load_jobs rows) (List.map (List.map Qopp) (self_index engine))
                   (job_embeddings engine).

(** A file system with a text resume, and a PDF whose second page
    cannot be read. *)
Definition disk : Files :=
  mkFiles
    (fun path => if String.eqb path "cv.pdf"
                 then Some [Some "Python developer "; None; Some "and more"]
                 else None)
    (fun path => if String.eqb path "cv.txt" then Some ("  " ++ resume ++ " ") else None).

End Flat.

(** ** What a match is

    The declarative reading of the patterns, against which the matcher is
    checked: [matches r s g s' g'] when [r] can consume the text between
    [s] and its suffix [s'], changing group 1 from [g] to [g']. *)

Fixpoint all_chars (p : ascii -> bool) (s : string) : bool :=
  match s with
  | EmptyString => true
  | String c r => p c && all_chars p r
  end.

Inductive matches : re -> string -> option string -> string -> option string -> Prop :=
| matches_eps s g : matches Eps s g s g
| matches_cls p c s g : p c = true -> matches (Cls p) (String c s) g s g
| matches_rep p min u s g :
    all_chars p u = true -> (min <= String.length u)%nat ->
    matches (Rep p min) (u ++ s) g s g
| matches_opt_some r s g s' g' : matches r s g s' g' -> matches (Opt r) s g s' g'
| matches_opt_none r s g : matches (Opt r) s g s g
| matches_cat r1 r2 s g s1 g1 s2 g2 :
    matches r1 s g s1 g1 -> matches r2 s1 g1 s2 g2 -> matches (Cat r1 r2) s g s2 g2
| matches_grp r s g s' g' :
    matches r s g s' g' -> matches (Grp r) s g s' (Some (consumed s s')).

(** A match of a pattern somewhere in a text, with the text of group 1. *)
Definition found_in (r : re) (text : string) (m : option string) : Prop :=
  exists before rest after,
    text = before ++ rest /\ matches r rest None after m.

(** Does a pattern contain the capturing group? *)
Fixpoint has_grp (r : re) : bool :=
  match r with
  | Eps | Cls _ | Rep _ _ => false
  | Opt r' => has_grp r'
  | Cat r1 r2 => has_grp r1 || has_grp r2
  | Grp _ => true
  end.

(** The texts of a run of pages, one after the other. *)
Fixpoint join (texts : list string) : string :=
  match texts with
  | [] => ""
  | t :: rest => t ++ join rest
  end.

(** The hits of a search that carry a stored row: label other than -1. *)
Definition is_hit {A C : Type} (h : A * (Z * C)) : bool := negb (fst (snd h) =? -1)%Z.

(** The list a run returned, empty for a run that raised. *)
Definition results_of {A W : Type} (out : result (list A) * W) : list A :=
  match fst out with
  | Ok l => l
  | Raise _ => []
  end.

(** ** The resume profile *)

(** [s.split()]: the maximal runs of characters that are not whitespace.
    [cur] is the run being read. *)
Fixpoint split_whitespace_from (cur : string) (s : string) : list string :=
  match s with
  | EmptyString => if PyStr.falsy cur then [] else [cur]
  | String c r =>
      if PyStr.isspace c then
        if PyStr.falsy cur then split_whitespace_from EmptyString r
        else cur :: split_whitespace_from EmptyString r
      else split_whitespace_from (cur ++ String c EmptyString) r
  end.

Definition split_whitespace (s : string) : list string :=
  split_whitespace_from EmptyString s.

(** The dictionary [get_resume_profile] returns. *)
Record Profile : Type := mkProfile {
  detected_skills : list string;
  experience_years : Z;
  word_count : nat
}.

(** [JobRecommender.get_resume_profile]; the method does not use [self].
    [None] when [extract_experience_years] raises. *)
Definition get_resume_profile (resume_text : string) : option Profile :=
  let skills := extract_skills_from_text resume_text in
  match extract_experience_years resume_text with
  | None => None
  | Some exp_yrs =>
      let word_cnt := length (split_whitespace resume_text) in
      Some (mkProfile skills exp_yrs word_cnt)
  end.

(** ** Helpers of the web application ([app.py]) *)

Definition ALLOWED_EXTENSIONS : list string := ["pdf"; "txt"].

(** [s.rsplit(sep, 1)] for a one-character separator: the text before the
    last separator and the text after it, or [s] alone without one. *)
Definition rsplit1 (sep : ascii) (s : string) : list string :=
  let i := OsPath.rfind sep s in
  if (i <? 0)%Z then [s]
  else [OsPath.slice_to s i; OsPath.slice_from s (i + 1)].

(** [allowed_file]: the [and] keeps [rsplit(".", 1)[1]] from being read
    when the name has no dot. *)
Definition allowed_file (filename : string) : bool :=
  PyStr.contains "." filename
  && match rsplit1 "." filename with
     | [_; ext] => existsb (String.eqb (PyStr.lower ext)) ALLOWED_EXTENSIONS
     | _ => false
     end.

(** The records of the [/jobs] route: [jobs_df.to_dict(orient="records")]
    with [combined_text] popped from each record. *)
Definition list_jobs (jobs_df : list Job) : list CsvRow := List.map csv jobs_df.

(** Is [idx] a position [iloc] accepts in a frame of [n] rows? *)
Definition in_bounds (n : nat) (idx : Z) : bool :=
  ((- Z.of_nat n <=? idx) && (idx <? Z.of_nat n))%Z.

(** Does a string contain a character? *)
Fixpoint has_char (c : ascii) (s : string) : bool :=
  match s with
  | EmptyString => false
  | String a r => Ascii.eqb a c || has_char c r
  end.

(** A text that does not start with a whitespace character. *)
Definition no_leading_space (s : string) : Prop :=
  match s with
  | EmptyString => True
  | String c _ => PyStr.isspace c = false
  end.

(** * Properties *)

(** ** Strings *)

Lemma startswith_spec (p s : string) :
  PyStr.startswith p s = true <-> exists b, s = p ++ b.
Proof.
  revert s. induction p as [|a p IH]; intros s; simpl.
  - split; [intros _; by exists s | done].
  - destruct s as [|c s]; simpl.
    + split; [done | intros [b Hb]; discriminate].
    + rewrite andb_true_iff, IH. split.
      * intros [Hac [b ->]]. apply Ascii.eqb_eq in Hac as ->. by exists b.
      * intros [b Hb]. injection Hb as -> ->. split; [apply Ascii.eqb_refl | by exists b].
Qed.

Lemma contains_spec (needle hay : string) :
  PyStr.contains needle hay = true <-> exists a b, hay = a ++ needle ++ b.
Proof.
  induction hay as [|c hay IH]; simpl.
  - rewrite orb_false_r, startswith_spec. split.
    + intros [b Hb]. by exists "", b.
    + intros [a [b Hab]]. destruct a; [by exists b | discriminate].
  - rewrite orb_true_iff, startswith_spec, IH. split.
    + intros [[b Hb] | [a [b Hab]]].
      * by exists "", b.
      * exists (String c a), b. simpl. by rewrite Hab.
    + intros [a [b Hab]]. destruct a as [|c' a]; simpl in Hab.
      * left. by exists b.
      * right. injection Hab as -> ->. by exists a, b.
Qed.

Lemma split_nonempty (sep : ascii) (s : string) : PyStr.split sep s <> [].
Proof.
  induction s as [|c s IH]; simpl; [done |].
  destruct (Ascii.eqb c sep); [done |].
  by destruct (PyStr.split sep s).
Qed.

(** ** The skill extractor *)

Lemma NoDup_COMMON_SKILLS : NoDup COMMON_SKILLS.
Proof. compute_done. Qed.

Lemma elem_of_found_skills (text x : string) :
  x ∈ found_skills text <->
  x ∈ COMMON_SKILLS /\ PyStr.contains x (PyStr.lower text) = true.
Proof. unfold found_skills. by rewrite !list_elem_of_In, filter_In. Qed.

Lemma elem_of_extract_skills (text x : string) :
  x ∈ extract_skills_from_text text <->
  x ∈ COMMON_SKILLS /\ exists a b, PyStr.lower text = a ++ x ++ b.
Proof.
  unfold extract_skills_from_text.
  by rewrite elem_of_elements, elem_of_list_to_set, elem_of_found_skills, contains_spec.
Qed.

(** C5. The skill extractor only looks at the lowercased text: two texts
    that are equal after lowercasing give identical skill lists; the list
    has no duplicates and holds exactly the vocabulary entries that occur
    as substrings of the lowercased text.  "Python, React" and
    "PYTHON, react" are such a pair. *)
Theorem extract_skills_case_insensitive (s t : string)
        (Hlower : PyStr.lower s = PyStr.lower t) :
  extract_skills_from_text s = extract_skills_from_text t
  /\ NoDup (extract_skills_from_text s)
  /\ (forall x, x ∈ extract_skills_from_text s <->
                x ∈ COMMON_SKILLS /\ exists a b, PyStr.lower s = a ++ x ++ b)
  /\ extract_skills_from_text "Python, React"
     = extract_skills_from_text "PYTHON, react".
Proof.
  split_and!.
  - unfold extract_skills_from_text, found_skills. by rewrite Hlower.
  - unfold extract_skills_from_text. apply NoDup_elements.
  - intros x. apply elem_of_extract_skills.
  - by vm_compute.
Qed.

Lemma extract_skills_case_insensitive_witness :
  PyStr.lower "Python, React" = PyStr.lower "PYTHON, react"
  /\ extract_skills_from_text "Python, React"
     = extract_skills_from_text "PYTHON, react"
  /\ "react" ∈ extract_skills_from_text "Python, React".
Proof.
  split; [by vm_compute |].
  destruct (extract_skills_case_insensitive "Python, React" "PYTHON, react")
    as (Heq & _ & Hmem & _); [by vm_compute |].
  split; [exact Heq |].
  apply Hmem. split; [compute_done | by exists "python, ", ""].
Defined.

(** ** The matcher is sound for the declarative reading *)

Lemma rep_sound p min s g k m :
  rep p min s g k = Some m ->
  exists s' g', matches (Rep p min) s g s' g' /\ k s' g' = Some m.
Proof.
  revert min. induction s as [|c s IH]; intros min H; simpl in H.
  - destruct min; [| done].
    exists "", g. split; [| done]. by apply (matches_rep p 0 "" "").
  - assert (Hstop : match min with O => k (String c s) g | S _ => None end = Some m ->
              exists s' g', matches (Rep p min) (String c s) g s' g' /\ k s' g' = Some m).
    { destruct min; [| done]. intros Hk. exists (String c s), g.
      split; [| done]. by apply (matches_rep p 0 "" (String c s)). }
    destruct (p c) eqn:Hpc; [| by apply Hstop].
    destruct (rep p (Nat.pred min) s g k) as [m'|] eqn:Hrec; [| by apply Hstop].
    injection H as ->. apply IH in Hrec as (s' & g' & Hm & Hk).
    exists s', g'. split; [| done].
    inversion Hm as [| |p' min' u s0 g0 Hall Hlen| | | |]; subst.
    apply (matches_rep p min (String c u) s' g').
    + simpl. by rewrite Hpc, Hall.
    + simpl. lia.
Qed.

Lemma rmatch_sound r : forall s g k m,
  rmatch r s g k = Some m ->
  exists s' g', matches r s g s' g' /\ k s' g' = Some m.
Proof.
  induction r as [|p|p min|r IH|r1 IH1 r2 IH2|r IH]; intros s g k m H; simpl in H.
  - exists s, g. split; [constructor | done].
  - destruct s as [|c s]; [done |]. destruct (p c) eqn:Hpc; [| done].
    exists s, g. split; [by constructor | done].
  - by apply rep_sound.
  - destruct (rmatch r s g k) as [m'|] eqn:Hr.
    + injection H as ->. apply IH in Hr as (s' & g' & Hm & Hk).
      exists s', g'. split; [by apply matches_opt_some | done].
    + exists s, g. split; [apply matches_opt_none | done].
  - apply IH1 in H as (s1 & g1 & Hm1 & H). apply IH2 in H as (s2 & g2 & Hm2 & Hk).
    exists s2, g2. split; [by econstructor | done].
  - apply IH in H as (s' & g' & Hm & Hk).
    exists s', (Some (consumed s s')). split; [by econstructor | done].
Qed.

Lemma search_sound r s m : search r s = Some m -> found_in r s m.
Proof.
  induction s as [|c s IH]; simpl; unfold match_here.
  - destruct (rmatch r "" None _) as [m'|] eqn:Hr; [| done].
    intros [= ->]. apply rmatch_sound in Hr as (s' & g' & Hm & [= ->]).
    by exists "", "", s'.
  - destruct (rmatch r (String c s) None _) as [m'|] eqn:Hr.
    + intros [= ->]. apply rmatch_sound in Hr as (s' & g' & Hm & [= ->]).
      by exists "", (String c s), s'.
    + intros H. apply IH in H as (before & rest & after & -> & Hm).
      by exists (String c before), rest, after.
Qed.

Lemma string_app_cons (c : ascii) (a b : string) :
  String c a ++ b = String c (a ++ b).
Proof. reflexivity. Qed.

Lemma string_app_assoc (a b c : string) : (a ++ b) ++ c = a ++ b ++ c.
Proof. induction a as [|x a IH]; [done | by rewrite !string_app_cons, IH]. Qed.

Lemma string_length_app (a b : string) :
  String.length (a ++ b) = (String.length a + String.length b)%nat.
Proof. induction a as [|x a IH]; [done | by rewrite string_app_cons; simpl; rewrite IH]. Qed.

Lemma consumed_app (u s : string) : consumed (u ++ s) s = u.
Proof.
  unfold consumed. rewrite string_length_app.
  replace (String.length u + String.length s - String.length s)%nat
    with (String.length u) by lia.
  induction u as [|c u IH]; [by destruct s |].
  rewrite string_app_cons. simpl. by rewrite IH.
Qed.

Lemma matches_suffix r s g s' g' : matches r s g s' g' -> exists u, s = u ++ s'.
Proof.
  induction 1 as [s g|p c s g Hp|p min u s g Hall Hlen|r s g s' g' _ IH|r s g
                 |r1 r2 s g s1 g1 s2 g2 _ IH1 _ IH2|r s g s' g' _ IH].
  - by exists "".
  - by exists (String c "").
  - by exists u.
  - exact IH.
  - by exists "".
  - destruct IH1 as [u1 ->], IH2 as [u2 ->]. exists (u1 ++ u2).
    by rewrite string_app_assoc.
  - exact IH.
Qed.

Lemma matches_no_grp r s g s' g' :
  has_grp r = false -> matches r s g s' g' -> g' = g.
Proof.
  intros Hr Hm. induction Hm as [| | | | |r1 r2 s g s1 g1 s2 g2 _ IH1 _ IH2|];
    simpl in Hr; try done.
  - by apply IHHm.
  - apply orb_false_iff in Hr as [Hr1 Hr2]. by rewrite (IH2 Hr2), (IH1 Hr1).
Qed.

Lemma matches_grp_rep p n s g s' g' :
  matches (Grp (Rep p (S n))) s g s' g' ->
  exists d, g' = Some d /\ d <> "" /\ all_chars p d = true /\ s = d ++ s'.
Proof.
  intros Hm. inversion Hm as [| | | | | |r s0 g0 s0' g0' Hrep]; subst.
  inversion Hrep as [| |p' min u s0 g0 Hall Hlen| | | |]; subst.
  exists u. rewrite consumed_app. split_and!; try done.
  intros ->. simpl in Hlen. lia.
Qed.

(** Whenever one of the three experience patterns is found in a text,
    group 1 is a non-empty run of digits of that text. *)
Lemma patterns_capture_digits (p : re) (text : string) (m : option string) :
  p ∈ patterns -> found_in p text m ->
  exists d, m = Some d /\ d <> "" /\ all_chars PyStr.isdigit d = true
            /\ exists a b, text = a ++ d ++ b.
Proof.
  intros Hp (before & rest & after & -> & Hm).
  unfold patterns in Hp. rewrite !elem_of_cons, elem_of_nil in Hp.
  destruct Hp as [-> | [-> | [-> | []]]].
  - inversion Hm as [| | | | |r1 r2 s g s1 g1 s2 g2 Hgrp Hrest|]; subst.
    apply matches_no_grp in Hrest as ->; [| done].
    apply matches_grp_rep in Hgrp as (d & -> & Hne & Hall & ->).
    exists d. split_and!; try done. by exists before, s1.
  - inversion Hm as [| | | | |r1 r2 s g s1 g1 s4 g4 Hlit Hm1|]; subst.
    inversion Hm1 as [| | | | |r1 r2 s g s2 g2 s0 g0 Hsep Hm2|]; subst.
    inversion Hm2 as [| | | | |r1 r2 s g s3 g3 s0 g0 Hgrp Hrest|]; subst.
    apply matches_no_grp in Hrest as ->; [| done].
    apply matches_grp_rep in Hgrp as (d & -> & Hne & Hall & ->).
    apply matches_suffix in Hlit as [u1 ->], Hsep as [u2 ->].
    exists d. split_and!; try done. exists (before ++ u1 ++ u2), s3.
    by rewrite !string_app_assoc.
  - inversion Hm as [| | | | |r1 r2 s g s1 g1 s2 g2 Hgrp Hrest|]; subst.
    apply matches_no_grp in Hrest as ->; [| done].
    apply matches_grp_rep in Hgrp as (d & -> & Hne & Hall & ->).
    exists d. split_and!; try done. by exists before, s1.
Qed.

(** ** Years of experience *)

Lemma lower_length (s : string) : String.length (PyStr.lower s) = String.length s.
Proof. induction s as [|c s IH]; [done | by simpl; rewrite IH]. Qed.

Lemma digit_val_nonneg (c : ascii) : PyStr.isdigit c = true -> (0 <= PyStr.digit_val c <= 9)%Z.
Proof.
  unfold PyStr.isdigit, PyStr.digit_val. intros [Hlo Hhi]%andb_true_iff.
  apply Nat.leb_le in Hlo. apply Nat.leb_le in Hhi. lia.
Qed.

Lemma int_acc_nonneg (d : string) : forall acc : Z,
  all_chars PyStr.isdigit d = true -> (0 <= acc)%Z -> (0 <= PyStr.int_acc acc d)%Z.
Proof.
  induction d as [|c d IH]; intros acc Hd Hacc; simpl; [done |].
  simpl in Hd. apply andb_true_iff in Hd as [Hc Hd].
  apply IH; [done |]. pose proof (digit_val_nonneg c Hc). lia.
Qed.

(** [int] returns on a string of at most [int_max_str_digits] characters
    and raises on a longer one. *)
Lemma int_returns (d : string) :
  (String.length d <= PyStr.int_max_str_digits)%nat ->
  PyStr.int d = Some (PyStr.int_acc 0 d).
Proof.
  intros Hlen. unfold PyStr.int.
  destruct (Nat.ltb_spec PyStr.int_max_str_digits (String.length d)); [lia | done].
Qed.

Lemma int_raises (d : string) :
  (PyStr.int_max_str_digits < String.length d)%nat -> PyStr.int d = None.
Proof.
  intros Hlen. unfold PyStr.int.
  destruct (Nat.ltb_spec PyStr.int_max_str_digits (String.length d)); [done | lia].
Qed.

(** What a pattern of the list captures is a part of the text, so it is
    no longer than the text. *)
Lemma capture_length (p : re) (text : string) (m : option string) :
  p ∈ patterns -> search p text = Some m ->
  (String.length (group1 m) <= String.length text)%nat
  /\ all_chars PyStr.isdigit (group1 m) = true.
Proof.
  intros Hp Hs. apply search_sound in Hs.
  destruct (patterns_capture_digits p text m Hp Hs) as (d & -> & _ & Hd & a & b & ->).
  simpl. split; [| done]. rewrite !string_length_app. lia.
Qed.

(** The loop returns a number that is not negative, or raises, and then
    the text has more than [int_max_str_digits] characters. *)
Lemma first_match_outcome (ps : list re) (text_lower : string) :
  (forall p, p ∈ ps -> p ∈ patterns) ->
  (exists n, first_match ps text_lower = Some n /\ (0 <= n)%Z)
  \/ (first_match ps text_lower = None
      /\ (PyStr.int_max_str_digits < String.length text_lower)%nat).
Proof.
  induction ps as [|p ps IH]; intros Hps; simpl.
  - left. by exists 0%Z.
  - destruct (search p text_lower) as [m|] eqn:Hs.
    + destruct (capture_length p text_lower m) as [Hlen Hd]; [apply Hps; left | done |].
      destruct (Nat.ltb_spec PyStr.int_max_str_digits (String.length (group1 m)))
        as [Hlong | Hshort].
      * right. split; [by apply int_raises | lia].
      * left. exists (PyStr.int_acc 0 (group1 m)). split; [by apply int_returns |].
        by apply int_acc_nonneg.
    + apply IH. intros q Hq. apply Hps. by right.
Qed.

(** C4. [extract_experience_years] tries the three patterns in their
    fixed order ("N+ years experience", then "experience: N years", then
    "N yrs experience") on the lowercased text and hands group 1 of the
    first pattern that is found to [int]; the result is 0 when no pattern
    is found.  Group 1 is a non-empty run of digits of the lowercased
    text: [int] returns its value when the run has at most 4300 digits,
    and raises [ValueError] when it has more.  So the call returns on
    every text of at most 4300 characters.  On
    "I have 3 years experience with python and docker" the result is 3. *)
Theorem extract_experience_years_first_match (text : string) :
  let t := PyStr.lower text in
  extract_experience_years text =
    match search pattern_years_experience t with
    | Some m => PyStr.int (group1 m)
    | None =>
        match search pattern_experience_years t with
        | Some m => PyStr.int (group1 m)
        | None =>
            match search pattern_yrs_experience t with
            | Some m => PyStr.int (group1 m)
            | None => Some 0%Z
            end
        end
    end
  /\ (forall p m, p ∈ patterns -> search p t = Some m ->
        exists d, m = Some d /\ d <> "" /\ all_chars PyStr.isdigit d = true
                  /\ (exists a b, t = a ++ d ++ b)
                  /\ ((String.length d <= PyStr.int_max_str_digits)%nat ->
                      PyStr.int (group1 m) = Some (PyStr.int_acc 0 d))
                  /\ ((PyStr.int_max_str_digits < String.length d)%nat ->
                      PyStr.int (group1 m) = None))
  /\ ((String.length text <= PyStr.int_max_str_digits)%nat ->
      exists n, extract_experience_years text = Some n)
  /\ extract_experience_years "I have 3 years experience with python and docker"
     = Some 3%Z.
Proof.
  split_and!.
  - reflexivity.
  - intros p m Hp Hs. apply search_sound in Hs.
    destruct (patterns_capture_digits p _ m Hp Hs) as (d & -> & Hne & Hd & Hsub).
    exists d. simpl. split_and!; try done.
    + apply int_returns.
    + apply int_raises.
  - intros Hlen. unfold extract_experience_years.
    destruct (first_match_outcome patterns (PyStr.lower text) (fun p Hp => Hp))
      as [(n & Hn & _) | [_ Hlong]]; [by exists n |].
    rewrite lower_length in Hlong. lia.
  - by vm_compute.
Qed.

Lemma extract_experience_years_first_match_witness :
  extract_experience_years "I have 3 years experience with python and docker" = Some 3%Z
  /\ exists d, search pattern_years_experience
                      (PyStr.lower "I have 3 years experience with python and docker")
               = Some (Some d)
               /\ d <> ""
               /\ PyStr.int d = Some (PyStr.int_acc 0 d).
Proof.
  destruct (extract_experience_years_first_match
              "I have 3 years experience with python and docker") as (_ & Hcap & _ & Hex).
  split; [exact Hex |].
  destruct (Hcap pattern_years_experience (Some "3")) as (d & Hd & Hne & _ & _ & Hint & _).
  - apply list_elem_of_here.
  - by vm_compute.
  - injection Hd as <-. exists "3". split_and!; [by vm_compute | exact Hne |].
    apply Hint. apply Nat.leb_le. reflexivity.
Defined.

(** C4, the counterexample: on a run of 4301 digits before
    " years experience" the first pattern is found, group 1 is the whole
    run, and [int] raises [ValueError]: no integer is returned. *)
Theorem extract_experience_years_digit_limit :
  let text := PyStr.mul "9" 4301 ++ " years experience" in
  search pattern_years_experience (PyStr.lower text) = Some (Some (PyStr.mul "9" 4301))
  /\ extract_experience_years text = None.
Proof. split; by vm_compute. Qed.

(** The order of the patterns decides when several are found. *)
Example extract_experience_years_order :
  extract_experience_years "Experience: 5 years; then 12+ Years of Experience" = Some 12%Z
  /\ extract_experience_years "Experience: 5 years" = Some 5%Z
  /\ extract_experience_years "12 34 yrs work experience" = Some 34%Z
  /\ extract_experience_years "a seasoned engineer" = Some 0%Z.
Proof. by vm_compute. Qed.

(** ** The job loader *)

Lemma string_app_nil_r (a : string) : a ++ "" = a.
Proof. induction a as [|x a IH]; [done | by rewrite string_app_cons, IH]. Qed.

Lemma combined_text_of_template (r : CsvRow) :
  combined_text_of r = render (field r) None combined_template.
Proof.
  transitivity
    (fillna "" (title r) ++ ". " ++ fillna "" (description r) ++ ". " ++
     "Required skills: " ++ fillna "" (skills r) ++ ". " ++
     "Level: " ++ fillna "" (experience_level r) ++ "").
  - by rewrite string_app_nil_r.
  - by vm_compute.
Qed.

(** C6. For every job row loaded by [load_jobs], [combined_text] is the
    template "{title}. {description}. Required skills: {skills}. Level:
    {experience_level}" filled with the row's four fields, a missing field
    counting as the empty string; it depends on those four fields only,
    so that two rows that agree on them get identical strings. *)
Theorem load_jobs_combined_text (rows : list CsvRow) (j j' : Job)
        (Hj : j ∈ load_jobs rows) (Hj' : j' ∈ load_jobs rows)
        (Htitle : title (csv j) = title (csv j'))
        (Hdescription : description (csv j) = description (csv j'))
        (Hskills : skills (csv j) = skills (csv j'))
        (Hlevel : experience_level (csv j) = experience_level (csv j')) :
  combined_text j = render (field (csv j)) None combined_template
  /\ combined_text j =
       default "" (title (csv j)) ++ ". " ++ default "" (description (csv j))
       ++ ". Required skills: " ++ default "" (skills (csv j))
       ++ ". Level: " ++ default "" (experience_level (csv j))
  /\ combined_text j = combined_text j'.
Proof.
  unfold load_jobs in Hj, Hj'.
  apply list_elem_of_In, in_map_iff in Hj as (r & <- & _).
  apply list_elem_of_In, in_map_iff in Hj' as (r' & <- & _).
  simpl in *. split_and!; try reflexivity.
  - apply combined_text_of_template.
  - unfold combined_text_of. by rewrite Htitle, Hdescription, Hskills, Hlevel.
Qed.

Lemma load_jobs_combined_text_witness :
  exists j j' : Job,
    csv j <> csv j'
    /\ combined_text j = "Backend Engineer. Build services. Required skills: python, sql, docker. Level: Mid"
    /\ combined_text j = combined_text j'.
Proof.
  pose (r1 := mkCsvRow 1 (Some "Backend Engineer") (Some "Acme") (Some "Remote")
                (Some "Build services") (Some "python, sql, docker") (Some "Mid") (Some "90k")).
  pose (r4 := mkCsvRow 4 (Some "Backend Engineer") (Some "Globex") (Some "Austin")
                (Some "Build services") (Some "python, sql, docker") (Some "Mid") (Some "95k")).
  exists (mkJob r1 (combined_text_of r1)), (mkJob r4 (combined_text_of r4)).
  destruct (load_jobs_combined_text Flat.rows
              (mkJob r1 (combined_text_of r1)) (mkJob r4 (combined_text_of r4)))
    as (_ & Htext & Hsame).
  - apply list_elem_of_here.
  - do 3 apply list_elem_of_further. apply list_elem_of_here.
  - reflexivity.
  - reflexivity.
  - reflexivity.
  - reflexivity.
  - split_and!; [discriminate | exact Htext | exact Hsame].
Defined.

(** ** Resume files *)

Lemma read_pages_app (before : list string) (rest : list (option string)) (text : string) :
  read_pages ((Some <$> before) ++ None :: rest) text = text ++ join before.
Proof.
  revert text. induction before as [|t before IH]; intros text; simpl.
  - by rewrite string_app_nil_r.
  - by rewrite IH, string_app_assoc.
Qed.

Lemma extract_resume_text_unsupported (fs : Files) (file_path : string) :
  let ext := PyStr.lower (snd (OsPath.splitext file_path)) in
  ext <> ".pdf" -> ext <> ".txt" -> ext <> ".text" ->
  extract_resume_text fs file_path = "".
Proof.
  intros ext Hpdf Htxt Htext. unfold extract_resume_text. fold ext.
  destruct (String.eqb_spec ext ".pdf") as [|_]; [done |].
  simpl. destruct (String.eqb_spec ext ".txt") as [|_]; [done |].
  destruct (String.eqb_spec ext ".text") as [|_]; done.
Qed.

(** ** The guard of [recommend] *)

Lemma lstrip_blank (s : string) :
  all_chars PyStr.isspace s = true -> PyStr.lstrip s = "".
Proof.
  induction s as [|c s IH]; simpl; [done |].
  intros [Hc Hs]%andb_true_iff. rewrite Hc. by apply IH.
Qed.

Lemma strip_blank (s : string) :
  all_chars PyStr.isspace s = true -> PyStr.strip s = "".
Proof. intros H. unfold PyStr.strip. by rewrite (lstrip_blank s H). Qed.

Section RecommendGuard.

Context `{B : Backend}.

(** C3. On a text made of whitespace only, the empty text included,
    [recommend] returns the empty list for every [top_k] (so for every
    [top_k >= 0]), raises nothing and leaves the world as it was: no call
    to the embedding model and no index search is made. *)
Theorem recommend_blank (self : JobRecommender) (resume_text : string)
        (top_k : Z) (w : World)
        (Hblank : all_chars PyStr.isspace resume_text = true) :
  recommend self resume_text top_k w = (Ok [], w)
  /\ calls (snd (recommend self resume_text top_k w)) = calls w.
Proof.
  unfold recommend. rewrite (strip_blank _ Hblank). simpl. done.
Qed.

(** C8 (as amended). [recommend_from_file] returns the empty list, raises
    nothing and makes no call when the extension of the path is none of
    ".pdf", ".txt", ".text", and when the extracted text is empty.
    Extraction itself never raises: a text file that cannot be read and
    a PDF that cannot be opened give the empty string, and a PDF that
    fails at one of its pages gives the stripped text of the pages read
    before that page. *)
Theorem recommend_from_file_empty (fs : Files) (self : JobRecommender)
        (file_path : string) (top_k : Z) (w : World) :
  let ext := PyStr.lower (snd (OsPath.splitext file_path)) in
  (ext <> ".pdf" -> ext <> ".txt" -> ext <> ".text" ->
   recommend_from_file fs self file_path top_k w = (Ok [], w))
  /\ (extract_resume_text fs file_path = "" ->
      recommend_from_file fs self file_path top_k w = (Ok [], w))
  /\ (read_text fs file_path = None -> extract_text_from_txt fs file_path = "")
  /\ (fitz_open fs file_path = None -> extract_text_from_pdf fs file_path = "")
  /\ (forall before rest,
        fitz_open fs file_path = Some ((Some <$> before) ++ None :: rest)%list ->
        extract_text_from_pdf fs file_path = PyStr.strip (join before)).
Proof.
  intros ext. split_and!.
  - intros Hpdf Htxt Htext. unfold recommend_from_file.
    by rewrite (extract_resume_text_unsupported fs file_path Hpdf Htxt Htext).
  - intros Hempty. unfold recommend_from_file. by rewrite Hempty.
  - intros Hread. unfold extract_text_from_txt. by rewrite Hread.
  - intros Hopen. unfold extract_text_from_pdf. by rewrite Hopen.
  - intros before rest Hopen. unfold extract_text_from_pdf.
    by rewrite Hopen, read_pages_app.
Qed.

End RecommendGuard.

(** ** Float arithmetic: rounding is monotone *)

Module F64Facts.
Import F64.
Local Open Scope Q_scope.

Lemma rhe_cases q : rhe q = Qfloor q \/ rhe q = (Qfloor q + 1)%Z.
Proof.
  unfold rhe. destruct (Qcompare _ _); auto. destruct (Z.even _); auto.
Qed.

Lemma rhe_inject n : rhe (inject_Z n) = n.
Proof.
  unfold rhe. rewrite Qfloor_Z.
  assert (H : inject_Z n - inject_Z n == 0) by ring.
  destruct (Qcompare_spec (inject_Z n - inject_Z n) (1#2)) as [E|E|E];
    [rewrite H in E; discriminate | reflexivity | rewrite H in E; discriminate].
Qed.

Lemma rhe_mono x y : x <= y -> (rhe x <= rhe y)%Z.
Proof.
  intros Hxy. pose proof (Qfloor_resp_le x y Hxy) as Hf.
  destruct (Z.eq_dec (Qfloor x) (Qfloor y)) as [E|NE].
  - unfold rhe. rewrite E.
    assert (Hr : x - inject_Z (Qfloor y) <= y - inject_Z (Qfloor y)) by lra.
    destruct (Qcompare_spec (x - inject_Z (Qfloor y)) (1#2)) as [E1|E1|E1];
    destruct (Qcompare_spec (y - inject_Z (Qfloor y)) (1#2)) as [E2|E2|E2];
      try (destruct (Z.even (Qfloor y))); try lia; try lra.
  - destruct (rhe_cases x) as [-> | ->], (rhe_cases y) as [-> | ->]; lia.
Qed.

(** Powers of two. *)

Lemma pow2_pos e : 0 < 2 ^ e.
Proof. by apply Qpower_0_lt. Qed.

Lemma pow2_add a b : 2 ^ (a + b) == 2 ^ a * 2 ^ b.
Proof. by apply Qpower_plus. Qed.

Lemma pow2_le a b : (a <= b)%Z -> 2 ^ a <= 2 ^ b.
Proof. intros H. by apply Qpower_le_compat_l. Qed.

Lemma pow2_inject n : (0 <= n)%Z -> 2 ^ n == inject_Z (2 ^ n).
Proof. intros H. by rewrite Zpower_Qpower. Qed.

(** Rounding at a fixed exponent. *)


Lemma at_exp_mono e x y : x <= y -> at_exp e x <= at_exp e y.
Proof.
  intros Hxy. unfold at_exp. pose proof (pow2_pos e) as He.
  apply Qmult_le_compat_r; [| lra].
  rewrite <- Zle_Qle. apply rhe_mono.
  apply Qmult_le_compat_r; [done |]. apply Qlt_le_weak. by apply Qinv_lt_0_compat.
Qed.

Lemma at_exp_fix e n : at_exp e (inject_Z n * 2 ^ e) == inject_Z n * 2 ^ e.
Proof.
  unfold at_exp. pose proof (pow2_pos e) as He.
  assert (Hq : inject_Z n * 2 ^ e / 2 ^ e == inject_Z n) by (field; lra).
  assert (Hr : rhe (inject_Z n * 2 ^ e / 2 ^ e) = n).
  { apply Z.le_antisymm.
    - rewrite <- (rhe_inject n) at 2. apply rhe_mono. lra.
    - rewrite <- (rhe_inject n) at 1. apply rhe_mono. lra. }
  by rewrite Hr.
Qed.

Lemma rnd_at_exp q : rnd q == at_exp (ulp_exp q) q.
Proof.
  unfold rnd. destruct (Qeq_bool q 0) eqn:Hz.
  - apply Qeq_bool_eq in Hz. 
    pose proof (at_exp_fix (ulp_exp q) 0) as H0.
    pose proof (at_exp_mono (ulp_exp q) q (inject_Z 0 * 2 ^ ulp_exp q)) as H1.
    pose proof (at_exp_mono (ulp_exp q) (inject_Z 0 * 2 ^ ulp_exp q) q) as H2.
    assert (Hz' : inject_Z 0 * 2 ^ ulp_exp q == 0) by ring.
    lra.
  - by rewrite Qred_correct.
Qed.


(** The magnitude. *)

Lemma log2_bounds (a : Z) : (0 < a)%Z ->
  2 ^ Z.log2 a <= inject_Z a /\ inject_Z a < 2 ^ (Z.log2 a + 1).
Proof.
  intros Ha. pose proof (Z.log2_spec a Ha) as [Hlo Hhi].
  pose proof (Z.log2_nonneg a) as Hnn.
  rewrite !pow2_inject by lia. split.
  - by rewrite <- Zle_Qle.
  - rewrite <- Zlt_Qlt. by replace (Z.log2 a + 1)%Z with (Z.succ (Z.log2 a)) by lia.
Qed.

Lemma mag_spec q : ~ q == 0 -> 2 ^ (mag q - 1) <= Qabs q /\ Qabs q < 2 ^ mag q.
Proof.
  intros Hq. destruct q as [n d].
  assert (Hn : (0 < Z.abs n)%Z).
  { destruct (Z.eq_dec n 0%Z) as [-> |]; [by destruct Hq | lia]. }
  unfold mag. simpl Qnum. simpl Qden.
  set (la := Z.log2 (Z.abs n)). set (lb := Z.log2 (Z.pos d)).
  destruct (log2_bounds (Z.abs n) Hn) as [Ha1 Ha2].
  destruct (log2_bounds (Z.pos d) eq_refl) as [Hb1 Hb2].
  fold la in Ha1, Ha2. fold lb in Hb1, Hb2.
  assert (Habs : Qabs (n # d) == inject_Z (Z.abs n) / inject_Z (Z.pos d)).
  { simpl. apply Qmake_Qdiv. }
  set (A := inject_Z (Z.abs n)) in *. set (D := inject_Z (Z.pos d)) in *.
  pose proof (pow2_pos la) as Hpa. pose proof (pow2_pos lb) as Hpb.
  assert (HD : 0 < D) by lra.
  assert (Hlow : 2 ^ (la - lb - 1) <= A / D).
  { apply Qle_shift_div_l; [done |].
    assert (E : 2 ^ la == 2 ^ (la - lb - 1) * 2 ^ (lb + 1)).
    { rewrite <- pow2_add. by replace (la - lb - 1 + (lb + 1))%Z with la by lia. }
    pose proof (pow2_pos (la - lb - 1)). nra. }
  assert (Hhigh : A / D < 2 ^ (la - lb + 1)).
  { apply Qlt_shift_div_r; [done |].
    assert (E : 2 ^ (la + 1) == 2 ^ (la - lb + 1) * 2 ^ lb).
    { rewrite <- pow2_add. by replace (la - lb + 1 + lb)%Z with (la + 1)%Z by lia. }
    pose proof (pow2_pos (la - lb + 1)). nra. }
  destruct (Qle_bool (2 ^ (la - lb)) (Qabs (n # d))) eqn:Hc.
  - apply Qle_bool_iff in Hc.
    replace (la - lb + 1 - 1)%Z with (la - lb)%Z by lia.
    split; [done |]. by rewrite Habs.
  - split; [by rewrite Habs |].
    apply Qnot_le_lt. intros Hle. apply Qle_bool_iff in Hle. congruence.
Qed.


Lemma at_exp_lower e n x :
  inject_Z n * 2 ^ e <= x -> inject_Z n * 2 ^ e <= at_exp e x.
Proof. intros H. rewrite <- (at_exp_fix e n). by apply at_exp_mono. Qed.

Lemma at_exp_upper e n x :
  x <= inject_Z n * 2 ^ e -> at_exp e x <= inject_Z n * 2 ^ e.
Proof. intros H. rewrite <- (at_exp_fix e n). by apply at_exp_mono. Qed.

Lemma pow2_multiple e a : (e <= a)%Z -> 2 ^ a == inject_Z (2 ^ (a - e)) * 2 ^ e.
Proof.
  intros H. rewrite <- pow2_inject by lia. rewrite <- pow2_add.
  by replace (a - e + e)%Z with a by lia.
Qed.

Lemma rnd_mono_pos x y : 0 < x -> x <= y -> rnd x <= rnd y.
Proof.
  intros Hx Hxy. rewrite !rnd_at_exp.
  destruct (mag_spec x) as [Hx1 Hx2]; [lra |].
  destruct (mag_spec y) as [Hy1 Hy2]; [lra |].
  rewrite Qabs_pos in Hx1, Hx2 by lra. rewrite Qabs_pos in Hy1, Hy2 by lra.
  assert (Hm : (mag x <= mag y)%Z).
  { destruct (Z.le_gt_cases (mag x) (mag y)) as [|Hgt]; [done |].
    pose proof (pow2_le (mag y) (mag x - 1) ltac:(lia)). lra. }
  destruct (Z.eq_dec (ulp_exp x) (ulp_exp y)) as [E|NE].
  - rewrite E. by apply at_exp_mono.
  - assert (He : (ulp_exp x <= mag y - 1 /\ ulp_exp y <= mag y - 1)%Z).
    { unfold ulp_exp, prec, emin in *. lia. }
    assert (Hlt : (mag x <= mag y - 1)%Z).
    { unfold ulp_exp, prec, emin in *. lia. }
    destruct He as [He1 He2].
    apply Qle_trans with (2 ^ (mag y - 1)).
    + rewrite (pow2_multiple (ulp_exp x) (mag y - 1) He1). apply at_exp_upper.
      rewrite <- pow2_multiple by done.
      pose proof (pow2_le (mag x) (mag y - 1) Hlt). lra.
    + rewrite (pow2_multiple (ulp_exp y) (mag y - 1) He2). apply at_exp_lower.
      by rewrite <- pow2_multiple.
Qed.

Lemma rnd_mono_neg x y : y < 0 -> x <= y -> rnd x <= rnd y.
Proof.
  intros Hy Hxy. rewrite !rnd_at_exp.
  destruct (mag_spec x) as [Hx1 Hx2]; [lra |].
  destruct (mag_spec y) as [Hy1 Hy2]; [lra |].
  rewrite Qabs_neg in Hx1, Hx2 by lra. rewrite Qabs_neg in Hy1, Hy2 by lra.
  assert (Hm : (mag y <= mag x)%Z).
  { destruct (Z.le_gt_cases (mag y) (mag x)) as [|Hgt]; [done |].
    pose proof (pow2_le (mag x) (mag y - 1) ltac:(lia)). lra. }
  destruct (Z.eq_dec (ulp_exp x) (ulp_exp y)) as [E|NE].
  - rewrite E. by apply at_exp_mono.
  - assert (He : (ulp_exp x <= mag x - 1 /\ ulp_exp y <= mag x - 1)%Z).
    { unfold ulp_exp, prec, emin in *. lia. }
    assert (Hlt : (mag y <= mag x - 1)%Z).
    { unfold ulp_exp, prec, emin in *. lia. }
    destruct He as [He1 He2].
    assert (Hneg : forall e, (e <= mag x - 1)%Z ->
              - 2 ^ (mag x - 1) == inject_Z (- 2 ^ (mag x - 1 - e)) * 2 ^ e).
    { intros e He. rewrite (pow2_multiple e (mag x - 1) He) at 1.
      rewrite inject_Z_opp. ring. }
    apply Qle_trans with (- 2 ^ (mag x - 1)).
    + rewrite (Hneg _ He1). apply at_exp_upper. rewrite <- Hneg by done. lra.
    + rewrite (Hneg _ He2). apply at_exp_lower. rewrite <- Hneg by done.
      pose proof (pow2_le (mag y) (mag x - 1) Hlt). lra.
Qed.

Lemma rnd_nonneg x : 0 <= x -> 0 <= rnd x.
Proof.
  intros Hx. rewrite rnd_at_exp.
  assert (E : 0 == inject_Z 0 * 2 ^ ulp_exp x) by ring.
  rewrite E at 1. apply at_exp_lower. by rewrite <- E.
Qed.

Lemma rnd_nonpos x : x <= 0 -> rnd x <= 0.
Proof.
  intros Hx. rewrite rnd_at_exp.
  assert (E : 0 == inject_Z 0 * 2 ^ ulp_exp x) by ring.
  rewrite E at 1. apply at_exp_upper. by rewrite <- E.
Qed.

(** Rounding to binary64 is monotone. *)
Lemma rnd_mono x y : x <= y -> rnd x <= rnd y.
Proof.
  intros Hxy. destruct (Qlt_le_dec 0 x) as [Hx|Hx].
  - by apply rnd_mono_pos.
  - destruct (Qlt_le_dec y 0) as [Hy|Hy].
    + by apply rnd_mono_neg.
    + apply Qle_trans with 0; [by apply rnd_nonpos | by apply rnd_nonneg].
Qed.

Lemma rnd_proper x y : x == y -> rnd x == rnd y.
Proof. intros E. apply Qle_antisym; apply rnd_mono; lra. Qed.


Lemma rnd_zero q : q == 0 -> rnd q = 0.
Proof. intros E. unfold rnd. apply Qeq_bool_iff in E. by rewrite E. Qed.

Lemma rnd_proper_eq x y : x == y -> rnd x = rnd y.
Proof.
  intros E. pose proof (rnd_proper x y E) as Hr. unfold rnd in *.
  assert (Hb : Qeq_bool x 0 = Qeq_bool y 0).
  { destruct (Qeq_bool x 0) eqn:Hx, (Qeq_bool y 0) eqn:Hy; try done.
    - apply Qeq_bool_iff in Hx. apply Qeq_bool_neq in Hy. destruct Hy. by rewrite <- E.
    - apply Qeq_bool_iff in Hy. apply Qeq_bool_neq in Hx. destruct Hx. by rewrite E. }
  rewrite <- Hb in *. destruct (Qeq_bool x 0); [done |].
  apply Qred_complete. by rewrite !Qred_correct in Hr.
Qed.

Lemma mul_mono_l x y c : 0 <= c -> x <= y -> mul x c <= mul y c.
Proof. intros Hc Hxy. apply rnd_mono. by apply Qmult_le_compat_r. Qed.

Lemma round_mono x y n : x <= y -> round x n <= round y n.
Proof.
  intros Hxy. unfold round.
  assert (Hp : 0 < inject_Z (10 ^ Z.of_nat n)).
  { change 0 with (inject_Z 0). rewrite <- Zlt_Qlt. lia. }
  apply rnd_mono. apply Qmult_le_compat_r.
  - rewrite <- Zle_Qle. apply rhe_mono. apply Qmult_le_compat_r; [done | lra].
  - apply Qlt_le_weak. by apply Qinv_lt_0_compat.
Qed.

(** The score of a hit, as a percentage with one decimal, is monotone in
    the score. *)
Lemma percent_mono x y :
  x <= y -> round (mul x 100) 1 <= round (mul y 100) 1.
Proof. intros Hxy. apply round_mono, mul_mono_l; [done | done]. Qed.

Lemma truediv_unit (a b : Z) :
  (0 <= a <= b)%Z -> (0 < b)%Z -> 0 <= truediv a b /\ truediv a b <= 1.
Proof.
  intros Ha Hb. unfold truediv.
  assert (HB : 0 < inject_Z b) by (change 0 with (inject_Z 0); by rewrite <- Zlt_Qlt).
  assert (HA : 0 <= inject_Z a) by (change 0 with (inject_Z 0); rewrite <- Zle_Qle; lia).
  assert (HAB : inject_Z a <= inject_Z b) by (rewrite <- Zle_Qle; lia).
  split.
  - apply rnd_nonneg. apply Qle_shift_div_l; [done | lra].
  - apply Qle_trans with (rnd 1); [| by vm_compute].
    apply rnd_mono. apply Qle_shift_div_r; [done | lra].
Qed.

(** A share [a / b] of a whole, as a percentage with one decimal, lies
    between 0 and 100. *)
Lemma share_percent_bounds (a b : Z) :
  (0 <= a <= b)%Z -> (0 < b)%Z ->
  0 <= round (mul (truediv a b) 100) 1 /\ round (mul (truediv a b) 100) 1 <= 100.
Proof.
  intros Ha Hb. destruct (truediv_unit a b Ha Hb) as [H0 H1]. split.
  - apply Qle_trans with (round (mul 0 100) 1); [by vm_compute |].
    by apply percent_mono.
  - apply Qle_trans with (round (mul 1 100) 1); [| by vm_compute].
    by apply percent_mono.
Qed.

Lemma share_percent_zero (b : Z) : round (mul (truediv 0 b) 100) 1 = 0.
Proof.
  unfold truediv. rewrite (rnd_zero (inject_Z 0 / inject_Z b)); [done |].
  unfold Qdiv. ring.
Qed.

Lemma share_percent_full (b : Z) :
  (0 < b)%Z -> round (mul (truediv b b) 100) 1 = 100.
Proof.
  intros Hb. unfold truediv.
  assert (HB : 0 < inject_Z b) by (change 0 with (inject_Z 0); by rewrite <- Zlt_Qlt).
  rewrite (rnd_proper_eq (inject_Z b / inject_Z b) 1); [done |].
  field. lra.
Qed.

End F64Facts.

(** ** The guard and the file entry point on the reference backend *)

Lemma recommend_blank_witness :
  all_chars PyStr.isspace "   " = true
  /\ recommend (B := Flat.backend) Flat.engine "   " 5 Flat.world0
     = (Ok [], Flat.world0).
Proof.
  split; [reflexivity |].
  apply (recommend_blank (B := Flat.backend) Flat.engine "   " 5 Flat.world0).
  reflexivity.
Defined.

(** C8, the counterexample: a PDF whose second page cannot be read is an
    extraction failure, and the text of its first page is returned, not
    the empty string. *)
Lemma extraction_failure_keeps_text :
  ~ (forall fs file_path,
       extraction_fails fs file_path -> extract_resume_text fs file_path = "").
Proof.
  intros H. specialize (H Flat.disk "cv.pdf").
  assert (Hfail : extraction_fails Flat.disk "cv.pdf").
  { left. split; [reflexivity |]. simpl. apply list_elem_of_further, list_elem_of_here. }
  specialize (H Hfail). vm_compute in H. discriminate H.
Qed.

Lemma recommend_from_file_empty_witness :
  recommend_from_file (B := Flat.backend) Flat.disk Flat.engine "cv.docx" 5 Flat.world0
  = (Ok [], Flat.world0)
  /\ extract_text_from_txt Flat.disk "missing.txt" = ""
  /\ extract_text_from_pdf Flat.disk "missing.pdf" = ""
  /\ extract_text_from_pdf Flat.disk "cv.pdf" = "Python developer".
Proof.
  destruct (recommend_from_file_empty (B := Flat.backend)
              Flat.disk Flat.engine "cv.docx" 5 Flat.world0) as (Hext & _).
  destruct (recommend_from_file_empty (B := Flat.backend)
              Flat.disk Flat.engine "missing.txt" 5 Flat.world0) as (_ & _ & Htxt & _).
  destruct (recommend_from_file_empty (B := Flat.backend)
              Flat.disk Flat.engine "missing.pdf" 5 Flat.world0) as (_ & _ & _ & Hpdf & _).
  destruct (recommend_from_file_empty (B := Flat.backend)
              Flat.disk Flat.engine "cv.pdf" 5 Flat.world0) as (_ & _ & _ & _ & Hpage).
  split_and!.
  - apply Hext; by vm_compute.
  - by apply Htxt.
  - by apply Hpdf.
  - by apply (Hpage ["Python developer "] [Some "and more"]).
Defined.

(** ** The loop of [recommend] *)

Section RecommendLoop.

Context `{B : Backend}.

(** The loop appends one result per hit with a stored row, in order. *)
Lemma recommend_loop_spec (self : JobRecommender) (resume_text : string)
      (hits : list (nat * (Z * Q))) : forall (acc out : list Rec.t),
  recommend_loop self resume_text hits acc = Ok out ->
  exists rows : list Job,
    Forall2 (fun h row => iloc (jobs_df self) (fst (snd h)) = Ok row)
            (List.filter is_hit hits) rows
    /\ out = (acc ++ zip_with (fun h row => make_result resume_text (fst h) row (snd (snd h)))
                             (List.filter is_hit hits) rows)%list.
Proof.
  induction hits as [|[rank [idx score]] hits IH]; intros acc out H; simpl in H.
  - injection H as <-. exists []. split; [constructor | by rewrite app_nil_r].
  - unfold is_hit at 1 2. simpl. destruct (idx =? -1)%Z eqn:Hidx; simpl.
    + by apply IH.
    + destruct (iloc (jobs_df self) idx) as [row|e] eqn:Hrow; [| done].
      apply IH in H as (rows & Hrows & ->).
      exists (row :: rows). split; [by constructor |].
      by rewrite <- app_assoc.
Qed.

(** What a run of [recommend] that returns a list went through. *)
Lemma recommend_inv (self : JobRecommender) (resume_text : string) (top_k : Z)
      (w w' : World) (results : list Rec.t) :
  recommend self resume_text top_k w = (Ok results, w') ->
  (PyStr.strip resume_text = "" /\ results = [] /\ w' = w)
  \/ exists scores0 indices0,
       index_search (self_index self) (resume_query resume_text) top_k
       = Ok (scores0, indices0)
       /\ recommend_loop self resume_text (enumerate 1 (py_zip indices0 scores0)) []
          = Ok results.
Proof.
  unfold recommend. destruct (PyStr.strip resume_text) as [|c s] eqn:Hstrip; simpl.
  - intros [= <- <-]. by left.
  - unfold mbind, M_bind, bind, emit, lift. simpl.
    destruct (index_search _ _ _) as [[scores0 indices0]|e] eqn:Hsearch; [| done].
    intros H. right. exists scores0, indices0. split; [done |].
    by destruct (recommend_loop _ _ _ _); injection H as ->.
Qed.

End RecommendLoop.

Lemma enumerate_lookup {A} (l : list A) : forall (start i : nat),
  enumerate start l !! i = (fun x => ((start + i)%nat, x)) <$> l !! i.
Proof.
  induction l as [|x l IH]; intros start i; [done |].
  destruct i as [|i]; simpl.
  - by rewrite Nat.add_0_r.
  - rewrite IH. by replace (S start + i)%nat with (start + S i)%nat by lia.
Qed.


Lemma elem_of_enumerate {A} (l : list A) (start rank : nat) (x : A) :
  (rank, x) ∈ enumerate start l ->
  (start <= rank)%nat /\ l !! (rank - start)%nat = Some x.
Proof.
  intros [i Hi]%list_elem_of_lookup. rewrite enumerate_lookup in Hi.
  destruct (l !! i) as [y|] eqn:Hy; [| done]. injection Hi as <- <-.
  split; [lia |]. by replace (start + i - start)%nat with i by lia.
Qed.

Section RecommendResults.

Context `{B : Backend}.

(** Every entry of the list [recommend] returns was made from one hit of
    the index search: the hit at position [rank - 1], with a label other
    than -1 that is a row of the catalog. *)
Lemma recommend_result_inv (self : JobRecommender) (resume_text : string)
      (top_k : Z) (w w' : World) (results : list Rec.t) (r : Rec.t) :
  recommend self resume_text top_k w = (Ok results, w') ->
  r ∈ results ->
  exists scores0 indices0 rank idx score row,
    index_search (self_index self) (resume_query resume_text) top_k
    = Ok (scores0, indices0)
    /\ (1 <= rank)%nat
    /\ indices0 !! (rank - 1)%nat = Some idx
    /\ scores0 !! (rank - 1)%nat = Some score
    /\ idx <> (-1)%Z
    /\ iloc (jobs_df self) idx = Ok row
    /\ r = make_result resume_text rank row score.
Proof.
  intros Hrun Hr. apply recommend_inv in Hrun as [(_ & -> & _) | Hrun].
  { by apply elem_of_nil in Hr. }
  destruct Hrun as (scores0 & indices0 & Hsearch & Hloop).
  apply recommend_loop_spec in Hloop as (rows & Hrows & ->). simpl in Hr.
  apply elem_of_lookup_zip_with in Hr as (i & [rank [idx score]] & row & -> & Hh & Hrow).
  pose proof (Forall2_lookup_lr _ _ _ _ _ _ Hrows Hh Hrow) as Hiloc. simpl in Hiloc.
  apply list_elem_of_lookup_2, list_elem_of_In, filter_In in Hh as [Hin Hhit].
  apply list_elem_of_In, elem_of_enumerate in Hin as [Hrank Hpos].
  unfold py_zip in Hpos. apply lookup_zip_with_Some in Hpos as (x & y & [= <- <-] & Hx & Hy).
  exists scores0, indices0, rank, idx, score, row. split_and!; try done.
  unfold is_hit in Hhit. simpl in Hhit. apply negb_true_iff, Z.eqb_neq in Hhit. done.
Qed.

End RecommendResults.

(** ** Skills of a job and matched skills *)

Lemma extract_skills_subseteq (text : string) :
  forall x, x ∈ extract_skills_from_text text -> x ∈ COMMON_SKILLS.
Proof. intros x Hx. by apply elem_of_extract_skills in Hx as [Hx _]. Qed.

Lemma job_skills_of_nonempty (cell : option string) : job_skills_of cell <> ∅.
Proof.
  unfold job_skills_of.
  pose proof (split_nonempty "," (py_str cell)) as Hne.
  destruct (PyStr.split "," (py_str cell)) as [|s l]; [done |].
  simpl. set_solver.
Qed.

Lemma job_skills_of_size_pos (cell : option string) :
  (1 <= size (job_skills_of cell))%nat.
Proof.
  pose proof (job_skills_of_nonempty cell) as Hne.
  assert (Hne' : job_skills_of cell ≢ ∅) by (intros E; by apply leibniz_equiv in E).
  apply size_non_empty_iff in Hne'. lia.
Qed.

Lemma job_skills_of_empty_cell : job_skills_of (Some "") = {[ "" ]}.
Proof. unfold job_skills_of. simpl. set_solver. Qed.

Lemma job_skills_of_missing_cell : job_skills_of None = {[ "nan" ]}.
Proof. unfold job_skills_of. simpl. set_solver. Qed.

(** C10. The skill set of a job is built from [str(cell).split(",")], which
    is never an empty list: the set has at least one element, so the
    divisor [max(len(job_skills), 1)] is the size of the set itself and
    is never zero.  An empty skills cell gives the set with the single
    element "", a missing one (NaN) the set with the single element "nan". *)
Theorem job_skills_never_empty (cell : option string) :
  PyStr.split "," (py_str cell) <> []
  /\ job_skills_of cell <> ∅
  /\ (1 <= size (job_skills_of cell))%nat
  /\ Nat.max (size (job_skills_of cell)) 1 = size (job_skills_of cell)
  /\ Z.of_nat (Nat.max (size (job_skills_of cell)) 1) <> 0%Z
  /\ job_skills_of (Some "") = {[ "" ]}
  /\ job_skills_of None = {[ "nan" ]}.
Proof.
  pose proof (job_skills_of_size_pos cell) as Hsize.
  split_and!.
  - apply split_nonempty.
  - apply job_skills_of_nonempty.
  - exact Hsize.
  - lia.
  - lia.
  - apply job_skills_of_empty_cell.
  - apply job_skills_of_missing_cell.
Qed.

Section MatchedSkills.

Context `{B : Backend}.

(** C9. Every matched skill of every result of [recommend] is an entry of
    [COMMON_SKILLS]; so a label outside the vocabulary is in no
    [matched_skills], whatever the resume and the job's skills cell say. *)
Theorem matched_skills_in_vocabulary (self : JobRecommender)
        (resume_text : string) (top_k : Z) (w w' : World)
        (results : list Rec.t) (r : Rec.t)
        (Hrun : recommend self resume_text top_k w = (Ok results, w'))
        (Hr : r ∈ results) :
  (forall s, s ∈ Rec.matched_skills r -> s ∈ COMMON_SKILLS)
  /\ (forall label, label ∉ COMMON_SKILLS -> label ∉ Rec.matched_skills r)
  /\ Rec.matched_skills r
     = elements ((list_to_set (extract_skills_from_text resume_text) : gset string)
                 ∩ job_skills_of (Rec.skills r)).
Proof.
  destruct (recommend_result_inv self resume_text top_k w w' results r Hrun Hr)
    as (scores0 & indices0 & rank & idx & score & row & _ & _ & _ & _ & _ & _ & ->).
  simpl.
  assert (Hsub : forall s,
    s ∈ elements ((list_to_set (extract_skills_from_text resume_text) : gset string)
                  ∩ job_skills_of (skills (csv row))) -> s ∈ COMMON_SKILLS).
  { intros s Hs. apply elem_of_elements, elem_of_intersection in Hs as [Hs _].
    apply elem_of_list_to_set in Hs. by apply (extract_skills_subseteq resume_text). }
  split_and!; [exact Hsub | | done].
  intros label Hout Hin. by apply Hout, Hsub.
Qed.

End MatchedSkills.

(** ** The skill percentage *)

Lemma empty_label_not_skill : "" ∉ COMMON_SKILLS.
Proof. compute_done. Qed.

Lemma nan_not_skill : "nan" ∉ COMMON_SKILLS.
Proof. compute_done. Qed.

Lemma length_elements_size (X : gset string) : length (elements X) = size X.
Proof. reflexivity. Qed.

Section SkillMatch.

Context `{B : Backend}.

(** C2. For every result of [recommend], [skill_match_pct] is
    [round(len(matched) / max(len(job_skills), 1) * 100, 1)], where
    [job_skills] is the set of the comma-separated, stripped and
    lowercased labels of the job's skills cell and [matched] its
    intersection with the skill set of the resume.  It lies between 0 and
    100, it is 0 when the intersection is empty, and for a job with an
    empty or missing skills cell the divisor is not zero and the result
    is 0. *)
Theorem skill_match_pct_spec (self : JobRecommender)
        (resume_text : string) (top_k : Z) (w w' : World)
        (results : list Rec.t) (r : Rec.t)
        (Hrun : recommend self resume_text top_k w = (Ok results, w'))
        (Hr : r ∈ results) :
  let resume_skills : gset string := list_to_set (extract_skills_from_text resume_text) in
  let job_skills : gset string :=
    list_to_set (List.map (fun s => PyStr.lower (PyStr.strip s))
                          (PyStr.split "," (py_str (Rec.skills r)))) in
  let matched := resume_skills ∩ job_skills in
  Rec.matched_skills r = elements matched
  /\ Rec.skill_match_pct r
     = F64.round (F64.mul (F64.truediv (Z.of_nat (length (Rec.matched_skills r)))
                                       (Z.of_nat (Nat.max (size job_skills) 1)))
                          100) 1
  /\ Z.of_nat (Nat.max (size job_skills) 1) <> 0%Z
  /\ (0 <= Rec.skill_match_pct r)%Q
  /\ (Rec.skill_match_pct r <= 100)%Q
  /\ (matched = ∅ -> Rec.skill_match_pct r = 0%Q)
  /\ (Rec.skills r = None \/ Rec.skills r = Some "" -> Rec.skill_match_pct r = 0%Q).
Proof.
  destruct (recommend_result_inv self resume_text top_k w w' results r Hrun Hr)
    as (scores0 & indices0 & rank & idx & score & row & _ & _ & _ & _ & _ & _ & ->).
  simpl. fold (job_skills_of (skills (csv row))).
  set (resume_skills := list_to_set (extract_skills_from_text resume_text) : gset string).
  set (job_skills := job_skills_of (skills (csv row))).
  pose proof (job_skills_of_size_pos (skills (csv row))) as Hsize.
  fold job_skills in Hsize.
  assert (Hle : (length (elements (resume_skills ∩ job_skills)) <= size job_skills)%nat).
  { rewrite length_elements_size. apply subseteq_size, intersection_subseteq_r. }
  assert (Hzero : resume_skills ∩ job_skills = ∅ ->
    F64.round (F64.mul (F64.truediv (Z.of_nat (length (elements (resume_skills ∩ job_skills))))
                                    (Z.of_nat (Nat.max (size job_skills) 1))) 100) 1 = 0%Q).
  { intros ->. rewrite elements_empty. apply F64Facts.share_percent_zero. }
  split_and!; try done.
  - lia.
  - apply F64Facts.share_percent_bounds; lia.
  - apply F64Facts.share_percent_bounds; lia.
  - intros Hcell. apply Hzero. apply set_eq. intros x.
    rewrite elem_of_intersection, elem_of_empty. split; [| done].
    intros [Hx Hjob]. unfold resume_skills in Hx. apply elem_of_list_to_set in Hx.
    apply extract_skills_subseteq in Hx.
    assert (Hx' : x = "" \/ x = "nan").
    { unfold job_skills in Hjob.
      destruct Hcell as [Hc | Hc]; rewrite Hc in Hjob.
      - rewrite job_skills_of_missing_cell in Hjob. apply elem_of_singleton in Hjob. by right.
      - rewrite job_skills_of_empty_cell in Hjob. apply elem_of_singleton in Hjob. by left. }
    destruct Hx' as [-> | ->]; [by apply empty_label_not_skill | by apply nan_not_skill].
Qed.

End SkillMatch.

(** ** The ranking *)






Section Ranking.

Context `{B : Backend}.



End Ranking.

(** ** Runs of the engine on the reference backend *)

Lemma run_returns `{B : Backend} (out : result (list Rec.t) * World) :
  (forall e, fst out <> Raise e) -> out = (Ok (results_of out), snd out).
Proof.
  unfold results_of. destruct out as [[l|e] w']; simpl; [done |].
  intros H. by destruct (H e).
Qed.

Lemma flat_run_returns (text : string) (k : Z) :
  fst (recommend (B := Flat.backend) Flat.engine text k Flat.world0) <> Raise IndexError ->
  fst (recommend (B := Flat.backend) Flat.engine text k Flat.world0) <> Raise LibraryError ->
  fst (recommend (B := Flat.backend) Flat.engine text k Flat.world0) <> Raise UnpicklingError ->
  recommend (B := Flat.backend) Flat.engine text k Flat.world0
  = (Ok (results_of (recommend (B := Flat.backend) Flat.engine text k Flat.world0)),
     snd (recommend (B := Flat.backend) Flat.engine text k Flat.world0)).
Proof.
  unfold results_of.
  destruct (recommend (B := Flat.backend) Flat.engine text k Flat.world0) as [[l|[]] w'];
    simpl; done.
Qed.



(** ** The index cache *)

Section IndexCache.

Context `{B : Backend}.

Lemma _build_index_writes (jobs : list Job) (w w1 : World) (self1 : JobRecommender) :
  _build_index jobs w = (Ok self1, w1) ->
  files w1 !! INDEX_PATH = Some (pickle_dumps (self_index self1, job_embeddings self1))
  /\ jobs_df self1 = jobs
  /\ job_embeddings self1 = normalize (model_encode (List.map combined_text jobs))
  /\ self_index self1
     = index_add (IndexFlatIP (shape1 (job_embeddings self1)))
                 (astype_float32 (job_embeddings self1)).
Proof.
  unfold _build_index, mbind, M_bind, bind, emit, get_files, put_files, mret, M_ret, ret.
  simpl. intros [= <- <-]. simpl. split_and!; try done. apply lookup_insert_eq.
Qed.

(** C7. After [_build_index] has written the cache, a start of the engine
    ([_build_or_load_index], on whatever the catalog then is) loads the
    index from the file instead of building one; when [pickle] gives back
    the object it was given, the loaded index answers every query and
    every [k] as the index before the save did: the same labels in the
    same order with the same scores.  The embedding matrix is the same
    too, and no text is encoded at that start. *)
Theorem index_cache_round_trip (jobs : list Job) (rows' : list CsvRow)
        (w w1 : World) (self1 : JobRecommender)
        (Hbuild : _build_index jobs w = (Ok self1, w1))
        (Hpickle : pickle_loads (pickle_dumps (self_index self1, job_embeddings self1))
                   = Some (self_index self1, job_embeddings self1)) :
  exists self2,
    _build_or_load_index rows' w1 = (Ok self2, w1)
    /\ (forall query k,
          index_search (self_index self2) query k
          = index_search (self_index self1) query k)
    /\ job_embeddings self2 = job_embeddings self1
    /\ jobs_df self2 = load_jobs rows'.
Proof.
  apply _build_index_writes in Hbuild as (Hfile & _).
  exists (mkJobRecommender (load_jobs rows') (self_index self1) (job_embeddings self1)).
  split_and!; try done.
  unfold _build_or_load_index, mbind, M_bind, bind, get_files. simpl.
  by rewrite Hfile, Hpickle.
Qed.

End IndexCache.

Lemma index_cache_round_trip_witness :
  exists self1 w1 self2,
    _build_or_load_index (B := Flat.backend) Flat.rows Flat.world0 = (Ok self1, w1)
    /\ files w1 !! INDEX_PATH <> None
    /\ _build_or_load_index (B := Flat.backend) [] w1 = (Ok self2, w1)
    /\ index_search (self_index self2) (resume_query Flat.resume) 2
       = index_search (self_index self1) (resume_query Flat.resume) 2.
Proof.
  pose (out := _build_index (B := Flat.backend) (load_jobs Flat.rows) Flat.world0).
  assert (Hout : out = (Ok Flat.engine, snd out)) by reflexivity.
  destruct (index_cache_round_trip (B := Flat.backend)
              (load_jobs Flat.rows) [] Flat.world0 (snd out) Flat.engine Hout)
    as (self2 & Hload & Hsame & _).
  - by vm_compute.
  - exists Flat.engine, (snd out), self2. split_and!.
    + reflexivity.
    + destruct (_build_index_writes (B := Flat.backend) _ _ _ _ Hout) as (Hfile & _).
      by rewrite Hfile.
    + exact Hload.
    + apply Hsame.
Defined.

(** ** Runs that show the skill percentage and the matched skills *)

Lemma skill_match_pct_spec_witness :
  let out := recommend (B := Flat.backend) Flat.engine Flat.resume 4 Flat.world0 in
  exists r1 r3,
    results_of out !! 0%nat = Some r1 /\ results_of out !! 3%nat = Some r3
    /\ Rec.skills r1 = Some "python, sql, docker"
    /\ Rec.skill_match_pct r1 = F64.rnd (667 # 10)
    /\ (0 <= Rec.skill_match_pct r1)%Q /\ (Rec.skill_match_pct r1 <= 100)%Q
    /\ Rec.skills r3 = None
    /\ Rec.skill_match_pct r3 = 0%Q.
Proof.
  intros out.
  assert (Hrun : out = (Ok (results_of out), snd out)).
  { apply flat_run_returns; by vm_compute. }
  eexists. eexists.
  split; [vm_compute; reflexivity |]. split; [vm_compute; reflexivity |].
  match goal with |- Rec.skills ?r1 = _ /\ _ /\ _ /\ _ /\ Rec.skills ?r3 = _ /\ _ =>
    destruct (skill_match_pct_spec (B := Flat.backend) Flat.engine Flat.resume 4
                Flat.world0 (snd out) (results_of out) r1 Hrun)
      as (_ & _ & _ & Hlo & Hhi & _);
    [apply list_elem_of_lookup_2 with 0%nat; vm_compute; reflexivity |];
    destruct (skill_match_pct_spec (B := Flat.backend) Flat.engine Flat.resume 4
                Flat.world0 (snd out) (results_of out) r3 Hrun)
      as (_ & _ & _ & _ & _ & _ & Hnone);
    [apply list_elem_of_lookup_2 with 3%nat; vm_compute; reflexivity |]
  end.
  split_and!.
  - reflexivity.
  - vm_compute. reflexivity.
  - exact Hlo.
  - exact Hhi.
  - reflexivity.
  - apply Hnone. left. reflexivity.
Defined.

Lemma matched_skills_in_vocabulary_witness :
  let text := "react and rust, css" in
  let out := recommend (B := Flat.backend) Flat.engine text 1 Flat.world0 in
  exists r,
    results_of out !! 0%nat = Some r
    /\ Rec.skills r = Some "React, CSS , rust"
    /\ PyStr.contains "rust" (PyStr.lower text) = true
    /\ PyStr.lower (PyStr.strip " rust") = "rust"
    /\ Rec.matched_skills r = ["css"; "react"]
    /\ ("rust" ∉ Rec.matched_skills r)
    /\ "react" ∈ COMMON_SKILLS.
Proof.
  intros text out.
  assert (Hrun : out = (Ok (results_of out), snd out)).
  { apply flat_run_returns; by vm_compute. }
  eexists. split; [vm_compute; reflexivity |].
  match goal with |- Rec.skills ?r = _ /\ _ =>
    destruct (matched_skills_in_vocabulary (B := Flat.backend) Flat.engine text 1
                Flat.world0 (snd out) (results_of out) r Hrun)
      as (Hin & Hout & _);
    [apply list_elem_of_lookup_2 with 0%nat; vm_compute; reflexivity |]
  end.
  split_and!.
  - reflexivity.
  - vm_compute. reflexivity.
  - vm_compute. reflexivity.
  - reflexivity.
  - apply Hout. compute_done.
  - apply Hin. apply list_elem_of_further, list_elem_of_here.
Defined.

(** ** The reference index keeps the contract of the search *)

Lemma non_increasing_cons2 (x y : Q) (l : list Q) :
  non_increasing (x :: y :: l) = Qle_bool y x && non_increasing (y :: l).
Proof. reflexivity. Qed.

Lemma Qle_bool_false_le (x y : Q) : Qle_bool x y = false -> Qle_bool y x = true.
Proof.
  intros H. apply Qle_bool_iff. apply Qlt_le_weak, Qnot_le_lt.
  intros Hle. apply Qle_bool_iff in Hle. congruence.
Qed.

Lemma insert_hit_cons (h h' : Q * Z) (l : list (Q * Z)) :
  Flat.insert_hit h (h' :: l)
  = if Qle_bool (fst h') (fst h) then h :: h' :: l else h' :: Flat.insert_hit h l.
Proof. reflexivity. Qed.

Lemma insert_hit_sorted (h : Q * Z) (l : list (Q * Z)) :
  non_increasing (List.map fst l) = true ->
  non_increasing (List.map fst (Flat.insert_hit h l)) = true.
Proof.
  induction l as [|h' l IH]; intros Hs; [done |].
  rewrite insert_hit_cons. destruct (Qle_bool (fst h') (fst h)) eqn:Hc.
  - rewrite !map_cons in *. by rewrite non_increasing_cons2, Hc.
  - apply Qle_bool_false_le in Hc.
    destruct l as [|h'' l].
    + change (Qle_bool (fst h) (fst h') && true = true). by rewrite Hc.
    + rewrite !map_cons, non_increasing_cons2 in Hs.
      apply andb_true_iff in Hs as [Hh'' Htail].
      rewrite <- map_cons in Htail. specialize (IH Htail).
      rewrite insert_hit_cons in IH |- *.
      destruct (Qle_bool (fst h'') (fst h)).
      * rewrite !map_cons in IH. rewrite !map_cons.
        by rewrite non_increasing_cons2, Hc.
      * rewrite !map_cons in IH. rewrite !map_cons.
        by rewrite non_increasing_cons2, Hh''.
Qed.

Lemma sort_hits_sorted (l : list (Q * Z)) :
  non_increasing (List.map fst (Flat.sort_hits l)) = true.
Proof. induction l as [|h l IH]; [done |]. simpl. by apply insert_hit_sorted. Qed.

Lemma insert_hit_Forall (P : Q * Z -> Prop) (h : Q * Z) (l : list (Q * Z)) :
  P h -> Forall P l -> Forall P (Flat.insert_hit h l).
Proof.
  intros Hh Hl. induction Hl as [|h' l Hh' Hl IH]; simpl; [by constructor |].
  destruct (Qle_bool (fst h') (fst h)); repeat constructor; done.
Qed.

Lemma sort_hits_Forall (P : Q * Z -> Prop) (l : list (Q * Z)) :
  Forall P l -> Forall P (Flat.sort_hits l).
Proof.
  induction 1 as [|h l Hh Hl IH]; simpl; [constructor |]. by apply insert_hit_Forall.
Qed.

Lemma number_rows_labels (rows : list (list Q)) (q : list Q) : forall i : Z,
  (0 <= i)%Z -> Forall (fun h : Q * Z => (0 <= snd h)%Z) (Flat.number_rows i rows q).
Proof.
  induction rows as [|r rows IH]; intros i Hi; simpl; [constructor |].
  constructor; [done |]. apply IH. lia.
Qed.

Lemma non_increasing_take (l : list Q) : forall n : nat,
  non_increasing l = true -> non_increasing (take n l) = true.
Proof.
  induction l as [|x l IH]; intros n Hs; [by destruct n |].
  destruct n as [|n]; [done |]. simpl take.
  destruct l as [|y l]; [by destruct n |].
  rewrite non_increasing_cons2 in Hs. apply andb_true_iff in Hs as [Hxy Hs].
  specialize (IH n Hs). destruct n as [|n]; [done |].
  simpl take in IH |- *. by rewrite non_increasing_cons2, Hxy.
Qed.

Lemma padded_with_padding (best : list (Q * Z)) (pad : nat) :
  Forall (fun h : Q * Z => (0 <= snd h)%Z) best ->
  padded (List.map snd best ++ List.repeat (-1)%Z pad) = true
  /\ valid_scores (List.map fst best ++ List.repeat Flat.lowest pad)
                  (List.map snd best ++ List.repeat (-1)%Z pad)
     = List.map fst best.
Proof.
  induction 1 as [|[s i] best Hi Hbest [IH1 IH2]].
  - simpl. split.
    + induction pad as [|pad IH]; [done |]. simpl. clear IH.
      induction pad as [|pad IH]; [done |]. done.
    + unfold valid_scores, py_zip. induction pad as [|pad IH]; [done |]. done.
  - simpl in Hi. assert (Hne : (i =? -1)%Z = false) by (apply Z.eqb_neq; lia).
    split.
    + simpl. by rewrite Hne.
    + unfold valid_scores, py_zip in *. simpl. rewrite Hne. simpl. by rewrite IH2.
Qed.

(** The exact flat index returns its hits by non-increasing score, at
    most [k] of them, with label -1 only as padding at the end. *)
Lemma flat_search_keeps_contract (rows : list (list Q)) (query : list (list Q))
      (k : Z) (scores0 : list Q) (indices0 : list Z) :
  Flat.search rows query k = Ok (scores0, indices0) ->
  hits_ok k scores0 indices0 = true.
Proof.
  unfold Flat.search. destruct (k <=? 0)%Z eqn:Hk; [done |].
  apply Z.leb_gt in Hk. intros [= <- <-].
  set (best := firstn (Z.to_nat k) (Flat.sort_hits (Flat.number_rows 0 rows (hd [] query)))).
  assert (Hlen : (length best <= Z.to_nat k)%nat) by apply firstn_le_length.
  assert (Hlabels : Forall (fun h : Q * Z => (0 <= snd h)%Z) best).
  { apply Forall_take, sort_hits_Forall, number_rows_labels. lia. }
  destruct (padded_with_padding best (Z.to_nat k - length best) Hlabels) as [Hpad Hvalid].
  unfold hits_ok. rewrite Hpad, Hvalid.
  rewrite !length_app, !length_map, !repeat_length.
  rewrite Nat.eqb_refl. simpl.
  apply andb_true_iff. split.
  - rewrite andb_true_r. apply Z.leb_le. lia.
  - unfold best. rewrite <- firstn_map. apply non_increasing_take, sort_hits_sorted.
Qed.

(** * Further properties of the code *)

(** ** Stripped texts *)

Lemma lstrip_no_leading_space (s : string) : no_leading_space (PyStr.lstrip s).
Proof.
  induction s as [|c s IH]; simpl; [done |].
  destruct (PyStr.isspace c) eqn:Hc; [exact IH | exact Hc].
Qed.

Lemma lstrip_id (s : string) : no_leading_space s -> PyStr.lstrip s = s.
Proof. destruct s as [|c s]; simpl; [done |]. by intros ->. Qed.

Lemma rstrip_no_leading_space (s : string) :
  no_leading_space s -> no_leading_space (PyStr.rstrip s).
Proof.
  destruct s as [|c s]; simpl; [done |]. intros Hc.
  destruct (PyStr.rstrip s); [by rewrite Hc | done].
Qed.

Lemma rstrip_idempotent (s : string) : PyStr.rstrip (PyStr.rstrip s) = PyStr.rstrip s.
Proof.
  induction s as [|c s IH]; simpl; [done |].
  destruct (PyStr.rstrip s) as [|c' r'] eqn:Hr.
  - destruct (PyStr.isspace c) eqn:Hc; simpl; [done | by rewrite Hc].
  - simpl in IH |- *. by rewrite IH.
Qed.

Lemma strip_idempotent (s : string) : PyStr.strip (PyStr.strip s) = PyStr.strip s.
Proof.
  unfold PyStr.strip.
  rewrite (lstrip_id (PyStr.rstrip (PyStr.lstrip s))).
  - apply rstrip_idempotent.
  - apply rstrip_no_leading_space, lstrip_no_leading_space.
Qed.

Lemma strip_no_leading_space (s : string) : no_leading_space (PyStr.strip s).
Proof. apply rstrip_no_leading_space, lstrip_no_leading_space. Qed.

Lemma extract_resume_text_is_strip (fs : Files) (file_path : string) :
  exists t, extract_resume_text fs file_path = PyStr.strip t.
Proof.
  unfold extract_resume_text, extract_text_from_pdf, extract_text_from_txt.
  destruct (String.eqb _ ".pdf"); [by eexists |].
  destruct (existsb _ _); [| by exists ""].
  destruct (read_text fs file_path); [by eexists | by exists ""].
Qed.

(** X1. The text [extract_resume_text] returns is always stripped:
    stripping it again changes nothing, it does not start with a
    whitespace character, and it is empty as soon as it is blank. *)
Theorem extract_resume_text_stripped (fs : Files) (file_path : string) :
  PyStr.strip (extract_resume_text fs file_path) = extract_resume_text fs file_path
  /\ no_leading_space (extract_resume_text fs file_path)
  /\ (all_chars PyStr.isspace (extract_resume_text fs file_path) = true <->
      extract_resume_text fs file_path = "").
Proof.
  destruct (extract_resume_text_is_strip fs file_path) as [t Ht]. rewrite Ht. split_and!.
  - apply strip_idempotent.
  - apply strip_no_leading_space.
  - split.
    + intros Hblank. rewrite <- strip_idempotent. by apply strip_blank.
    + by intros ->.
Qed.

(** ** What a run of [recommend] does *)

Section RecommendRuns.

Context `{B : Backend}.

(** On a text that is not blank, [recommend] encodes the text, searches
    the index, and runs its loop over the hits. *)
Lemma recommend_nonblank (self : JobRecommender) (resume_text : string)
      (top_k : Z) (w : World) :
  PyStr.strip resume_text <> "" ->
  recommend self resume_text top_k w
  = (match index_search (self_index self) (resume_query resume_text) top_k with
     | Ok (scores0, indices0) =>
         recommend_loop self resume_text (enumerate 1 (py_zip indices0 scores0)) []
     | Raise e => Raise e
     end,
     mkWorld (files w)
             (EvSearch (resume_query resume_text) top_k
              :: EvEncode [resume_text] :: calls w)).
Proof.
  intros Hne. unfold recommend.
  destruct (PyStr.strip resume_text) as [|c s]; [done |]. simpl.
  unfold mbind, M_bind, bind, emit, lift. simpl.
  destruct (index_search _ _ _) as [[scores0 indices0]|e]; [| done].
  by destruct (recommend_loop _ _ _ _).
Qed.

Lemma recommend_nonblank_calls (self : JobRecommender) (resume_text : string)
      (top_k : Z) (w : World) :
  PyStr.strip resume_text <> "" ->
  calls (snd (recommend self resume_text top_k w))
  = EvSearch (resume_query resume_text) top_k :: EvEncode [resume_text] :: calls w.
Proof. intros Hn. by rewrite (recommend_nonblank self resume_text top_k w Hn). Qed.

(** X2. [recommend] never touches the files of the working directory.
    On a blank text it makes no call; on any other text it makes exactly
    two, one to the embedding model with the text and then one index
    search, also when the run ends with an exception. *)
Theorem recommend_effects (self : JobRecommender) (resume_text : string)
        (top_k : Z) (w : World) :
  files (snd (recommend self resume_text top_k w)) = files w
  /\ (PyStr.strip resume_text = "" ->
      calls (snd (recommend self resume_text top_k w)) = calls w)
  /\ (PyStr.strip resume_text <> "" ->
      calls (snd (recommend self resume_text top_k w))
      = EvSearch (resume_query resume_text) top_k :: EvEncode [resume_text] :: calls w).
Proof.
  destruct (decide (PyStr.strip resume_text = "")) as [Hb | Hn].
  - assert (Hrun : recommend self resume_text top_k w = (Ok [], w)).
    { unfold recommend. by rewrite Hb. }
    rewrite Hrun. by split_and!.
  - rewrite (recommend_nonblank self resume_text top_k w Hn). by split_and!.
Qed.

(** X4. [recommend_from_file] reaches the engine exactly when the
    extracted text is not empty: then it is [recommend] on that text, the
    whitespace guard of [recommend] does not fire, and the embedding model
    and the index are called once each; otherwise nothing is called. *)
Theorem recommend_from_file_calls (fs : Files) (self : JobRecommender)
        (file_path : string) (top_k : Z) (w : World) :
  let text := extract_resume_text fs file_path in
  (text = "" -> recommend_from_file fs self file_path top_k w = (Ok [], w))
  /\ (text <> "" ->
      recommend_from_file fs self file_path top_k w = recommend self text top_k w
      /\ calls (snd (recommend_from_file fs self file_path top_k w))
         = EvSearch (resume_query text) top_k :: EvEncode [text] :: calls w).
Proof.
  intros text. unfold recommend_from_file. fold text. split.
  - by intros ->.
  - intros Hne. destruct text as [|c s] eqn:Ht; [done |]. simpl. split; [done |].
    rewrite <- Ht. apply recommend_nonblank_calls.
    destruct (extract_resume_text_is_strip fs file_path) as [t Hstrip].
    fold text in Hstrip. rewrite Ht in Hstrip. by rewrite Ht, Hstrip, strip_idempotent, <- Hstrip.
Qed.

End RecommendRuns.

Lemma recommend_effects_witness :
  PyStr.strip Flat.resume <> ""
  /\ files (snd (recommend (B := Flat.backend) Flat.engine Flat.resume 0 Flat.world0)) = ∅
  /\ calls (snd (recommend (B := Flat.backend) Flat.engine Flat.resume 0 Flat.world0))
     = [EvSearch (resume_query Flat.resume) 0; EvEncode [Flat.resume]]
  /\ calls (snd (recommend (B := Flat.backend) Flat.engine "  " 0 Flat.world0)) = [].
Proof.
  assert (Hne : PyStr.strip Flat.resume <> "") by (by vm_compute).
  destruct (recommend_effects (B := Flat.backend) Flat.engine Flat.resume 0 Flat.world0)
    as (Hfiles & _ & Hcalls).
  destruct (recommend_effects (B := Flat.backend) Flat.engine "  " 0 Flat.world0)
    as (_ & Hblank & _).
  split_and!; [exact Hne | exact Hfiles | by apply Hcalls | by apply Hblank].
Defined.

Lemma recommend_from_file_calls_witness :
  extract_resume_text Flat.disk "cv.txt" = Flat.resume
  /\ recommend_from_file (B := Flat.backend) Flat.disk Flat.engine "cv.txt" 2 Flat.world0
     = recommend (B := Flat.backend) Flat.engine Flat.resume 2 Flat.world0
  /\ recommend_from_file (B := Flat.backend) Flat.disk Flat.engine "cv.md" 2 Flat.world0
     = (Ok [], Flat.world0).
Proof.
  assert (Ht : extract_resume_text Flat.disk "cv.txt" = Flat.resume) by (by vm_compute).
  destruct (recommend_from_file_calls (B := Flat.backend) Flat.disk Flat.engine
              "cv.txt" 2 Flat.world0) as (_ & Hsome).
  destruct (recommend_from_file_calls (B := Flat.backend) Flat.disk Flat.engine
              "cv.md" 2 Flat.world0) as (Hnone & _).
  split_and!; [exact Ht | | by apply Hnone].
  rewrite <- Ht. apply Hsome. rewrite Ht. by vm_compute.
Defined.

(** ** Labels, rows and [IndexError] *)

Lemma iloc_in_bounds {A} (df : list A) (idx : Z) :
  in_bounds (length df) idx = true -> exists row, iloc df idx = Ok row /\ row ∈ df.
Proof.
  unfold in_bounds, iloc. intros [Hlo Hhi]%andb_true_iff.
  apply Z.leb_le in Hlo. apply Z.ltb_lt in Hhi.
  set (i := if (idx <? 0)%Z then (idx + Z.of_nat (length df))%Z else idx).
  assert (Hi : (0 <= i < Z.of_nat (length df))%Z).
  { unfold i. destruct (Z.ltb_spec idx 0); lia. }
  replace ((0 <=? i)%Z && (i <? Z.of_nat (length df))%Z) with true
    by (symmetry; apply andb_true_iff; split; [apply Z.leb_le | apply Z.ltb_lt]; lia).
  destruct (df !! Z.to_nat i) as [row|] eqn:Hrow.
  - exists row. split; [done |]. by apply list_elem_of_lookup_2 in Hrow.
  - apply lookup_ge_None in Hrow. lia.
Qed.

Lemma iloc_out_of_bounds {A} (df : list A) (idx : Z) :
  in_bounds (length df) idx = false -> iloc df idx = Raise IndexError.
Proof.
  unfold in_bounds, iloc. intros Hout.
  set (i := if (idx <? 0)%Z then (idx + Z.of_nat (length df))%Z else idx).
  destruct ((0 <=? i)%Z && (i <? Z.of_nat (length df))%Z) eqn:Hin; [| done].
  apply andb_true_iff in Hin as [Hlo Hhi]. apply Z.leb_le in Hlo. apply Z.ltb_lt in Hhi.
  assert (Hb : (- Z.of_nat (length df) <=? idx)%Z && (idx <? Z.of_nat (length df))%Z = true).
  { apply andb_true_iff. unfold i in *.
    destruct (Z.ltb_spec idx 0); split; [apply Z.leb_le | apply Z.ltb_lt | apply Z.leb_le
                                       | apply Z.ltb_lt]; lia. }
  congruence.
Qed.

Lemma iloc_raises_only_IndexError {A} (df : list A) (idx : Z) (e : exn) :
  iloc df idx = Raise e -> e = IndexError.
Proof.
  unfold iloc. destruct (_ && _); [| by intros [= <-]].
  destruct (df !! _); [done | by intros [= <-]].
Qed.

Section LoopOutcome.

Context `{B : Backend}.


Lemma recommend_loop_index_error (self : JobRecommender) (resume_text : string)
      (hits : list (nat * (Z * Q))) : forall acc,
  Exists (fun h => is_hit h = true
                   /\ in_bounds (length (jobs_df self)) (fst (snd h)) = false) hits ->
  recommend_loop self resume_text hits acc = Raise IndexError.
Proof.
  induction hits as [|[rank [idx score]] hits IH]; intros acc Hex.
  - by apply Exists_nil in Hex.
  - simpl. destruct (idx =? -1)%Z eqn:Hidx.
    + apply Exists_cons in Hex as [[Hhit _] | Hex]; [| by apply IH].
      unfold is_hit in Hhit. simpl in Hhit. by rewrite Hidx in Hhit.
    + destruct (iloc (jobs_df self) idx) as [row|e] eqn:Hrow.
      * apply Exists_cons in Hex as [[_ Hout] | Hex]; [| by apply IH].
        simpl in Hout. apply iloc_out_of_bounds in Hout. congruence.
      * by apply iloc_raises_only_IndexError in Hrow as ->.
Qed.


End LoopOutcome.


Lemma enumerate_zip_lookup {A C} (xs : list A) (ys : list C) (start p : nat)
      (x : A) (y : C) :
  xs !! p = Some x -> ys !! p = Some y ->
  ((start + p)%nat, (x, y)) ∈ enumerate start (py_zip xs ys).
Proof.
  intros Hx Hy. apply list_elem_of_lookup. exists p.
  rewrite enumerate_lookup. unfold py_zip.
  assert (Hz : zip xs ys !! p = Some (x, y)).
  { apply lookup_zip_with_Some. by exists x, y. }
  by rewrite Hz.
Qed.


Section RecommendOutcome.

Context `{B : Backend}.


(** X6. When the search returns, at a position that has a score, a label
    other than -1 that is not a position of the catalog (an index that
    holds more rows than [jobs_df], as after a start from a stale cache),
    [recommend] ends with [IndexError] and returns no list. *)
Theorem recommend_index_error (self : JobRecommender) (resume_text : string)
        (top_k : Z) (w : World) (scores0 : list Q) (indices0 : list Z)
        (p : nat) (idx : Z) (score : Q)
        (Htext : PyStr.strip resume_text <> "")
        (Hsearch : index_search (self_index self) (resume_query resume_text) top_k
                   = Ok (scores0, indices0))
        (Hidx : indices0 !! p = Some idx)
        (Hscore : scores0 !! p = Some score)
        (Hhit : idx <> (-1)%Z)
        (Hout : in_bounds (length (jobs_df self)) idx = false) :
  fst (recommend self resume_text top_k w) = Raise IndexError.
Proof.
  rewrite (recommend_nonblank self resume_text top_k w Htext), Hsearch. simpl.
  apply recommend_loop_index_error. apply Exists_exists.
  exists ((1 + p)%nat, (idx, score)). split_and!.
  - by apply enumerate_zip_lookup.
  - unfold is_hit. simpl. by apply negb_true_iff, Z.eqb_neq.
  - done.
Qed.


(** X7. Every entry of a returned list is a row of the catalog: its
    [job_id] and its seven text fields are those of the row [iloc] finds
    at the label of the hit at position [rank - 1], and that label is not
    -1. *)
Theorem recommend_result_fields (self : JobRecommender) (resume_text : string)
        (top_k : Z) (w w' : World) (results : list Rec.t) (r : Rec.t)
        (Hrun : recommend self resume_text top_k w = (Ok results, w'))
        (Hr : r ∈ results) :
  exists scores0 indices0 idx row,
    index_search (self_index self) (resume_query resume_text) top_k
    = Ok (scores0, indices0)
    /\ indices0 !! (Rec.rank r - 1)%nat = Some idx
    /\ idx <> (-1)%Z
    /\ iloc (jobs_df self) idx = Ok row
    /\ row ∈ jobs_df self
    /\ Rec.job_id r = job_id (csv row)
    /\ Rec.title r = title (csv row)
    /\ Rec.company r = company (csv row)
    /\ Rec.location r = location (csv row)
    /\ Rec.description r = description (csv row)
    /\ Rec.skills r = skills (csv row)
    /\ Rec.experience_level r = experience_level (csv row)
    /\ Rec.salary_range r = salary_range (csv row).
Proof.
  destruct (recommend_result_inv self resume_text top_k w w' results r Hrun Hr)
    as (scores0 & indices0 & rank & idx & score & row & Hs & _ & Hidx & _ & Hne & Hrow & ->).
  exists scores0, indices0, idx, row. simpl. split_and!; try done.
  destruct (in_bounds (length (jobs_df self)) idx) eqn:Hb.
  - destruct (iloc_in_bounds (jobs_df self) idx Hb) as (row' & Hrow' & Hin). congruence.
  - apply iloc_out_of_bounds in Hb. congruence.
Qed.

End RecommendOutcome.


(** ** Starting the engine: cache present, cache unreadable, no cache *)

Section Start.

Context `{B : Backend}.

Lemma _build_or_load_index_cached (rows : list CsvRow) (w : World) (content : blob)
      (ix : index) (embeddings : matrix) :
  files w !! INDEX_PATH = Some content ->
  pickle_loads content = Some (ix, embeddings) ->
  _build_or_load_index rows w = (Ok (mkJobRecommender (load_jobs rows) ix embeddings), w).
Proof.
  intros Hfile Hload.
  unfold _build_or_load_index, mbind, M_bind, bind, get_files. simpl.
  by rewrite Hfile, Hload.
Qed.

(** X8. A start with a cache file that [pickle] can read makes no call to
    the embedding model, writes nothing, and takes the index and the
    embeddings of the file as they are, whatever the catalog holds: the
    catalog is only used for [jobs_df]. *)
Theorem start_from_cache (rows : list CsvRow) (w : World) (content : blob)
        (ix : index) (embeddings : matrix)
        (Hfile : files w !! INDEX_PATH = Some content)
        (Hload : pickle_loads content = Some (ix, embeddings)) :
  exists self,
    _build_or_load_index rows w = (Ok self, w)
    /\ self_index self = ix
    /\ job_embeddings self = embeddings
    /\ jobs_df self = load_jobs rows.
Proof.
  exists (mkJobRecommender (load_jobs rows) ix embeddings).
  split; [by apply (_build_or_load_index_cached rows w content) | done].
Qed.

(** X9. A start with a cache file that [pickle] cannot read ends with the
    exception of [pickle.load]: no index is built in its place, the file
    stays as it is and no text is encoded. *)
Theorem start_from_unreadable_cache (rows : list CsvRow) (w : World) (content : blob)
        (Hfile : files w !! INDEX_PATH = Some content)
        (Hload : pickle_loads content = None) :
  _build_or_load_index rows w = (Raise UnpicklingError, w).
Proof.
  unfold _build_or_load_index, mbind, M_bind, bind, get_files, raise. simpl.
  by rewrite Hfile, Hload.
Qed.

Lemma _build_index_run (jobs : list Job) (w : World) :
  _build_index jobs w
  = let embeddings := normalize (model_encode (List.map combined_text jobs)) in
    let ix := index_add (IndexFlatIP (shape1 embeddings)) (astype_float32 embeddings) in
    (Ok (mkJobRecommender jobs ix embeddings),
     mkWorld (<[INDEX_PATH := pickle_dumps (ix, embeddings)]> (files w))
             (EvEncode (List.map combined_text jobs) :: calls w)).
Proof. reflexivity. Qed.

(** X10. A start without a cache file, on a catalog that is not empty
    (the library calls refuse an empty batch of texts), encodes the
    combined texts of the catalog, in catalog order and in one call,
    builds the index from the normalized vectors and writes the cache
    file; no other file changes. *)
Theorem start_without_cache (rows : list CsvRow) (w : World)
        (Hrows : rows <> [])
        (Hfile : files w !! INDEX_PATH = None) :
  exists self w1,
    _build_or_load_index rows w = (Ok self, w1)
    /\ jobs_df self = load_jobs rows
    /\ job_embeddings self
       = normalize (model_encode (List.map combined_text (load_jobs rows)))
    /\ self_index self
       = index_add (IndexFlatIP (shape1 (job_embeddings self)))
                   (astype_float32 (job_embeddings self))
    /\ calls w1 = EvEncode (List.map combined_text (load_jobs rows)) :: calls w
    /\ files w1 !! INDEX_PATH
       = Some (pickle_dumps (self_index self, job_embeddings self))
    /\ (forall path, path <> INDEX_PATH -> files w1 !! path = files w !! path).
Proof.
  eexists. eexists. split.
  - unfold _build_or_load_index, mbind at 1, M_bind, bind at 1, get_files. simpl.
    rewrite Hfile. apply _build_index_run.
  - simpl. split_and!; try done.
    + apply lookup_insert_eq.
    + intros path Hne. by apply lookup_insert_ne.
Qed.

(** X11. On a catalog that is not empty, [rebuild_index] ends in the
    same state as [_build_index] on the catalog of the engine: removing
    the cache file first makes no difference, with or without a file
    there, and the file it leaves holds the new index. *)
Theorem rebuild_index_is_build (self : JobRecommender) (w : World)
        (Hjobs : jobs_df self <> []) :
  rebuild_index self w = _build_index (jobs_df self) w
  /\ exists self1 w1,
       rebuild_index self w = (Ok self1, w1)
       /\ jobs_df self1 = jobs_df self
       /\ files w1 !! INDEX_PATH
          = Some (pickle_dumps (self_index self1, job_embeddings self1)).
Proof.
  assert (Heq : rebuild_index self w = _build_index (jobs_df self) w).
  { rewrite _build_index_run.
    unfold rebuild_index, mbind, M_bind, bind, get_files, put_files, mret, M_ret, ret.
    simpl. destruct (decide (is_Some (files w !! INDEX_PATH))) as [Hs | Hn]; simpl.
    - rewrite _build_index_run. simpl. by rewrite insert_delete_eq.
    - by rewrite _build_index_run. }
  split; [exact Heq |]. rewrite Heq, _build_index_run. simpl.
  eexists. eexists. split; [reflexivity |]. simpl. split; [done |].
  apply lookup_insert_eq.
Qed.

End Start.

Lemma start_from_cache_witness :
  let w1 := snd (_build_index (B := Flat.backend) (load_jobs Flat.rows) Flat.world0) in
  _build_or_load_index (B := Flat.backend) (firstn 1 Flat.rows) w1
  = (Ok Flat.stale_engine, w1)
  /\ length (jobs_df Flat.stale_engine) = 1%nat
  /\ length (self_index Flat.stale_engine) = 4%nat.
Proof.
  intros w1.
  destruct (start_from_cache (B := Flat.backend) (firstn 1 Flat.rows) w1
              (pickle_dumps (self_index Flat.engine, job_embeddings Flat.engine))
              (self_index Flat.engine) (job_embeddings Flat.engine))
    as (self & Hrun & Hix & Hemb & Hjobs).
  - apply lookup_insert_eq.
  - by vm_compute.
  - split_and!; [| reflexivity | reflexivity].
    rewrite Hrun. f_equal. destruct self as [jobs ix emb]. simpl in *. by subst.
Defined.

Lemma start_from_unreadable_cache_witness :
  _build_or_load_index (B := Flat.backend) Flat.rows
    (mkWorld (B := Flat.backend) {[ INDEX_PATH := [1; 2; 3]%Z ]} [])
  = (Raise UnpicklingError,
     mkWorld (B := Flat.backend) {[ INDEX_PATH := [1; 2; 3]%Z ]} []).
Proof.
  apply (start_from_unreadable_cache (B := Flat.backend) Flat.rows _ [1; 2; 3]%Z).
  - apply lookup_singleton_eq.
  - reflexivity.
Defined.

Lemma start_without_cache_witness :
  exists w1,
    _build_or_load_index (B := Flat.backend) Flat.rows Flat.world0 = (Ok Flat.engine, w1)
    /\ calls w1 = [EvEncode (List.map combined_text (load_jobs Flat.rows))]
    /\ files w1 !! INDEX_PATH <> None.
Proof.
  destruct (start_without_cache (B := Flat.backend) Flat.rows Flat.world0)
    as (self & w1 & Hrun & _ & _ & _ & Hcalls & Hfile & _).
  - done.
  - apply lookup_empty.
  - exists w1. split_and!.
    + rewrite Hrun. f_equal. f_equal.
      assert (Hfst : fst (_build_or_load_index (B := Flat.backend) Flat.rows Flat.world0)
                     = Ok Flat.engine) by reflexivity.
      rewrite Hrun in Hfst. simpl in Hfst. by injection Hfst.
    + exact Hcalls.
    + by rewrite Hfile.
Defined.

Lemma rebuild_index_is_build_witness :
  let w1 := snd (_build_index (B := Flat.backend) (load_jobs Flat.rows) Flat.world0) in
  rebuild_index (B := Flat.backend) Flat.stale_engine w1
  = _build_index (B := Flat.backend) (jobs_df Flat.stale_engine) w1
  /\ length (jobs_df Flat.stale_engine) = 1%nat.
Proof.
  intros w1. split; [| reflexivity].
  apply (rebuild_index_is_build (B := Flat.backend) Flat.stale_engine w1). done.
Defined.

Lemma recommend_index_error_witness :
  length (jobs_df Flat.stale_engine) = 1%nat
  /\ fst (recommend (B := Flat.backend) Flat.stale_engine Flat.resume 2 Flat.world0)
     = Raise IndexError.
Proof.
  split; [reflexivity |].
  apply (recommend_index_error (B := Flat.backend) Flat.stale_engine Flat.resume 2
           Flat.world0 [3 # 64; 3 # 64]%Q [0; 3]%Z 1 3 (3 # 64)%Q).
  - by vm_compute.
  - by vm_compute.
  - reflexivity.
  - reflexivity.
  - done.
  - reflexivity.
Defined.

(** ** The catalog of a started engine *)

Lemma list_jobs_load_jobs (rows : list CsvRow) : list_jobs (load_jobs rows) = rows.
Proof.
  unfold list_jobs, load_jobs. rewrite map_map. simpl. apply map_id.
Qed.

Section Catalog.

Context `{B : Backend}.

Lemma _build_or_load_index_jobs (rows : list CsvRow) (w w' : World)
      (self : JobRecommender) :
  _build_or_load_index rows w = (Ok self, w') -> jobs_df self = load_jobs rows.
Proof.
  unfold _build_or_load_index, mbind at 1, M_bind, bind at 1, get_files. simpl.
  destruct (files w !! INDEX_PATH) as [content|].
  - destruct (pickle_loads content) as [[ix emb]|]; [| done]. by intros [= <- _].
  - rewrite _build_index_run. simpl. by intros [= <- _].
Qed.

(** X12. However the engine started (from the cache or by building the
    index), the records of the [/jobs] route are the rows of the CSV file,
    all of them, in the order of the file and without [combined_text]. *)
Theorem list_jobs_of_started_engine (rows : list CsvRow) (w w' : World)
        (self : JobRecommender)
        (Hstart : _build_or_load_index rows w = (Ok self, w')) :
  list_jobs (jobs_df self) = rows
  /\ length (jobs_df self) = length rows.
Proof.
  apply _build_or_load_index_jobs in Hstart. rewrite Hstart.
  split; [apply list_jobs_load_jobs |].
  unfold load_jobs. apply length_map.
Qed.

End Catalog.

Lemma list_jobs_of_started_engine_witness :
  list_jobs (jobs_df (B := Flat.backend) Flat.engine) = Flat.rows.
Proof.
  apply (list_jobs_of_started_engine (B := Flat.backend) Flat.rows Flat.world0
           (snd (_build_or_load_index (B := Flat.backend) Flat.rows Flat.world0))
           Flat.engine).
  reflexivity.
Defined.

(** ** Years of experience are never negative *)

(** X13. [extract_experience_years] never returns a negative number (a
    sign before the digits is not part of the captured group), and it
    raises only on a text of more than 4300 characters. *)
Theorem extract_experience_years_nonneg (text : string) :
  (forall n, extract_experience_years text = Some n -> (0 <= n)%Z)
  /\ (extract_experience_years text = None ->
      (PyStr.int_max_str_digits < String.length text)%nat).
Proof.
  unfold extract_experience_years.
  destruct (first_match_outcome patterns (PyStr.lower text) (fun p Hp => Hp))
    as [(n & Hn & Hpos) | [Hn Hlong]]; rewrite Hn.
  - split; [by intros ? [= <-] | done].
  - split; [done |]. intros _. by rewrite lower_length in Hlong.
Qed.

Lemma extract_experience_years_nonneg_witness :
  extract_experience_years "-5 years experience" = Some 5%Z
  /\ (0 <= 5)%Z.
Proof.
  assert (Hrun : extract_experience_years "-5 years experience" = Some 5%Z) by (by vm_compute).
  split; [exact Hrun |].
  destruct (extract_experience_years_nonneg "-5 years experience") as [Hpos _].
  by apply Hpos.
Defined.

(** ** Skills and longer texts *)

Lemma lower_app (a b : string) : PyStr.lower (a ++ b) = PyStr.lower a ++ PyStr.lower b.
Proof.
  induction a as [|c a IH]; [done |].
  rewrite string_app_cons. simpl. by rewrite IH.
Qed.

(** X14. Text around a text never removes a detected skill: the skills of
    a text are among the skills of every text that contains it. *)
Theorem extract_skills_monotone (before text after : string) (x : string)
        (Hx : x ∈ extract_skills_from_text text) :
  x ∈ extract_skills_from_text (before ++ text ++ after).
Proof.
  apply elem_of_extract_skills in Hx as (Hvoc & a & b & Hab).
  apply elem_of_extract_skills. split; [done |].
  exists (PyStr.lower before ++ a), (b ++ PyStr.lower after).
  by rewrite !lower_app, Hab, !string_app_assoc.
Qed.

Lemma extract_skills_monotone_witness :
  "docker" ∈ extract_skills_from_text "Docker"
  /\ "docker" ∈ extract_skills_from_text ("I use " ++ "Docker" ++ " daily").
Proof.
  assert (H : "docker" ∈ extract_skills_from_text "Docker") by compute_done.
  split; [exact H |]. by apply (extract_skills_monotone "I use " "Docker" " daily").
Defined.

(** X15. Matching is by substring, so a vocabulary entry that is a
    substring of a detected skill is detected with it: "java" with
    "javascript", "sql" with "mysql" and "postgresql", "r" with every
    skill that has an r in it. *)
Theorem extract_skills_substring_closed (text short long : string)
        (Hvoc : short ∈ COMMON_SKILLS)
        (Hsub : PyStr.contains short long = true)
        (Hlong : long ∈ extract_skills_from_text text) :
  short ∈ extract_skills_from_text text.
Proof.
  apply elem_of_extract_skills in Hlong as (_ & a & b & Hab).
  apply contains_spec in Hsub as (a' & b' & ->).
  apply elem_of_extract_skills. split; [done |].
  exists (a ++ a'), (b' ++ b). by rewrite Hab, !string_app_assoc.
Qed.

Lemma extract_skills_substring_closed_witness :
  "javascript" ∈ extract_skills_from_text "JavaScript developer"
  /\ "java" ∈ extract_skills_from_text "JavaScript developer".
Proof.
  assert (H : "javascript" ∈ extract_skills_from_text "JavaScript developer")
    by compute_done.
  split; [exact H |].
  apply (extract_skills_substring_closed "JavaScript developer" "java" "javascript");
    [compute_done | reflexivity | exact H].
Defined.

(** ** A full skill match and the range of the match score *)

Section Scores.

Context `{B : Backend}.

(** X16. When every skill label of the job is among the skills detected
    in the resume, the matched skills are the skills of the job and
    [skill_match_pct] is 100. *)
Theorem skill_match_pct_full (self : JobRecommender) (resume_text : string)
        (top_k : Z) (w w' : World) (results : list Rec.t) (r : Rec.t)
        (Hrun : recommend self resume_text top_k w = (Ok results, w'))
        (Hr : r ∈ results)
        (Hall : job_skills_of (Rec.skills r)
                ⊆ (list_to_set (extract_skills_from_text resume_text) : gset string)) :
  Rec.matched_skills r = elements (job_skills_of (Rec.skills r))
  /\ Rec.skill_match_pct r = 100%Q.
Proof.
  destruct (recommend_result_inv self resume_text top_k w w' results r Hrun Hr)
    as (scores0 & indices0 & rank & idx & score & row & _ & _ & _ & _ & _ & _ & ->).
  simpl in *.
  set (resume_skills := list_to_set (extract_skills_from_text resume_text) : gset string) in *.
  set (job_skills := job_skills_of (skills (csv row))) in *.
  assert (Hcap : resume_skills ∩ job_skills = job_skills).
  { apply set_eq. intros x. rewrite elem_of_intersection. split; [by intros [_ ?] |].
    intros Hx. split; [by apply Hall | done]. }
  rewrite Hcap. split; [done |].
  pose proof (job_skills_of_size_pos (skills (csv row))) as Hsize. fold job_skills in Hsize.
  rewrite length_elements_size.
  replace (Nat.max (size job_skills) 1) with (size job_skills) by lia.
  apply F64Facts.share_percent_full. lia.
Qed.

(** X17. The match score is not cut off at 0 and keeps the side of the
    score: a score of -0.001 or less gives a match score of -0.1 or less,
    a score of 0.001 or more one of 0.1 or more, a score of 0 or less
    never a positive one and a score of 0 or more never a negative one.
    For a score between -1 and 1, as the inner product of normalized
    vectors is, the match score lies between -100 and 100. *)
Theorem match_score_range (self : JobRecommender) (resume_text : string)
        (top_k : Z) (w w' : World) (results : list Rec.t) (r : Rec.t)
        (Hrun : recommend self resume_text top_k w = (Ok results, w'))
        (Hr : r ∈ results) :
  exists scores0 indices0 score,
    index_search (self_index self) (resume_query resume_text) top_k = Ok (scores0, indices0)
    /\ scores0 !! (Rec.rank r - 1)%nat = Some score
    /\ ((score <= -(1 # 1000))%Q -> (Rec.match_score r <= -(1 # 10))%Q)
    /\ (((1 # 1000) <= score)%Q -> ((1 # 10) <= Rec.match_score r)%Q)
    /\ ((score <= 0)%Q -> (Rec.match_score r <= 0)%Q)
    /\ ((0 <= score)%Q -> (0 <= Rec.match_score r)%Q)
    /\ ((-1 <= score)%Q -> (score <= 1)%Q ->
        (-100 <= Rec.match_score r)%Q /\ (Rec.match_score r <= 100)%Q).
Proof.
  destruct (recommend_result_inv self resume_text top_k w w' results r Hrun Hr)
    as (scores0 & indices0 & rank & idx & score & row & Hs & _ & _ & Hscore & _ & _ & ->).
  exists scores0, indices0, score. simpl.
  split_and!; try done.
  - intros Hneg. apply Qle_trans with (F64.round (F64.mul (-(1 # 1000)) 100) 1);
      [| by vm_compute].
    by apply F64Facts.percent_mono.
  - intros Hpos. apply Qle_trans with (F64.round (F64.mul (1 # 1000) 100) 1);
      [by vm_compute |].
    by apply F64Facts.percent_mono.
  - intros Hneg. apply Qle_trans with (F64.round (F64.mul 0 100) 1); [| by vm_compute].
    by apply F64Facts.percent_mono.
  - intros Hpos. apply Qle_trans with (F64.round (F64.mul 0 100) 1); [by vm_compute |].
    by apply F64Facts.percent_mono.
  - intros Hlo Hhi. split.
    + apply Qle_trans with (F64.round (F64.mul (-1) 100) 1); [by vm_compute |].
      by apply F64Facts.percent_mono.
    + apply Qle_trans with (F64.round (F64.mul 1 100) 1); [| by vm_compute].
      by apply F64Facts.percent_mono.
Qed.

End Scores.

Lemma skill_match_pct_full_witness :
  let out := recommend (B := Flat.backend) Flat.engine "python, sql and docker" 1
                       Flat.world0 in
  exists r,
    results_of out !! 0%nat = Some r
    /\ Rec.skills r = Some "python, sql, docker"
    /\ Rec.skill_match_pct r = 100%Q.
Proof.
  intros out.
  assert (Hrun : out = (Ok (results_of out), snd out)).
  { apply flat_run_returns; by vm_compute. }
  eexists. split; [vm_compute; reflexivity |].
  match goal with |- Rec.skills ?r = _ /\ _ =>
    destruct (skill_match_pct_full (B := Flat.backend) Flat.engine
                "python, sql and docker" 1 Flat.world0 (snd out) (results_of out) r Hrun)
      as (_ & Hpct)
  end.
  - apply list_elem_of_lookup_2 with 0%nat. vm_compute. reflexivity.
  - apply (bool_decide_unpack _). by vm_compute.
  - split; [reflexivity | exact Hpct].
Defined.

Lemma match_score_range_witness :
  let out := recommend (B := Flat.backend) Flat.opposed_engine Flat.resume 1 Flat.world0 in
  exists r,
    results_of out !! 0%nat = Some r
    /\ Rec.match_score r = F64.rnd (- (16 # 10))
    /\ (Rec.match_score r <= -(1 # 10))%Q.
Proof.
  intros out.
  assert (Hrun : out = (Ok (results_of out), snd out)).
  { apply run_returns. intros []; by vm_compute. }
  eexists. split; [vm_compute; reflexivity |].
  match goal with |- Rec.match_score ?r = _ /\ _ =>
    destruct (match_score_range (B := Flat.backend) Flat.opposed_engine Flat.resume 1
                Flat.world0 (snd out) (results_of out) r Hrun)
      as (scores0 & indices0 & score & Hs & Hscore & Hneg & _)
  end.
  - apply list_elem_of_lookup_2 with 0%nat. vm_compute. reflexivity.
  - split; [vm_compute; reflexivity |]. apply Hneg.
    assert (Hsearch : index_search (Backend := Flat.backend) (self_index Flat.opposed_engine)
                        (resume_query Flat.resume) 1
                      = Ok ([-(1 # 64)]%Q, [1]%Z)) by (vm_compute; reflexivity).
    rewrite Hsearch in Hs. injection Hs as <- <-.
    injection Hscore as <-. by vm_compute.
Defined.

(** ** The resume profile *)

Lemma split_whitespace_from_nil (s : string) : forall cur : string,
  split_whitespace_from cur s = [] <-> cur = "" /\ all_chars PyStr.isspace s = true.
Proof.
  induction s as [|c s IH]; intros cur; simpl.
  - destruct cur; simpl; split; try done. by intros [? _].
  - destruct (PyStr.isspace c) eqn:Hc; simpl.
    + destruct cur as [|a cur]; simpl.
      * rewrite IH. tauto.
      * split; [done | by intros [? _]].
    + rewrite IH. split; [| by intros [_ ?]].
      intros [Hcur _]. by destruct cur.
Qed.

Lemma split_whitespace_from_length (s : string) : forall cur : string,
  (length (split_whitespace_from cur s)
   <= String.length s + (if PyStr.falsy cur then 0 else 1))%nat.
Proof.
  induction s as [|c s IH]; intros cur; simpl.
  - destruct (PyStr.falsy cur); simpl; lia.
  - destruct (PyStr.isspace c).
    + specialize (IH ""). simpl in IH. destruct (PyStr.falsy cur); simpl; lia.
    + specialize (IH (cur ++ String c "")).
      assert (Hf : PyStr.falsy (cur ++ String c "") = false) by (by destruct cur).
      rewrite Hf in IH. destruct (PyStr.falsy cur); lia.
Qed.

(** X18. [get_resume_profile] returns a profile for every text of at most
    4300 characters.  In a profile it returns, the detected skills are
    vocabulary entries without repetition, the years of experience are
    not negative, and the word count is 0 exactly for a blank text and
    never more than the number of characters. *)
Theorem get_resume_profile_invariants (resume_text : string) :
  ((String.length resume_text <= PyStr.int_max_str_digits)%nat ->
   exists profile, get_resume_profile resume_text = Some profile)
  /\ forall profile, get_resume_profile resume_text = Some profile ->
       (forall s, s ∈ detected_skills profile -> s ∈ COMMON_SKILLS)
       /\ NoDup (detected_skills profile)
       /\ (0 <= experience_years profile)%Z
       /\ (word_count profile = 0%nat <-> all_chars PyStr.isspace resume_text = true)
       /\ (word_count profile <= String.length resume_text)%nat.
Proof.
  unfold get_resume_profile, extract_experience_years.
  destruct (first_match_outcome patterns (PyStr.lower resume_text) (fun p Hp => Hp))
    as [(n & Hn & Hpos) | [Hn Hlong]]; rewrite Hn.
  - split; [by eexists |]. intros profile [= <-]. simpl. split_and!.
    + apply extract_skills_subseteq.
    + unfold extract_skills_from_text. apply NoDup_elements.
    + done.
    + rewrite length_zero_iff_nil. unfold split_whitespace.
      rewrite split_whitespace_from_nil. tauto.
    + pose proof (split_whitespace_from_length resume_text "") as H. simpl in H.
      unfold split_whitespace. lia.
  - split; [| done]. rewrite lower_length in Hlong. lia.
Qed.

Lemma get_resume_profile_invariants_witness :
  exists profile blank,
    get_resume_profile Flat.resume = Some profile
    /\ get_resume_profile "   " = Some blank
    /\ word_count profile = 9%nat
    /\ word_count blank = 0%nat
    /\ (0 <= experience_years profile)%Z.
Proof.
  eexists. eexists. split; [vm_compute; reflexivity |]. split; [vm_compute; reflexivity |].
  match goal with |- word_count ?p = _ /\ word_count ?b = _ /\ _ =>
    destruct (get_resume_profile_invariants Flat.resume) as [_ Hp];
    destruct (Hp p) as (_ & _ & Hexp & _); [by vm_compute |];
    destruct (get_resume_profile_invariants "   ") as [_ Hb];
    destruct (Hb b) as (_ & _ & _ & Hblank & _); [by vm_compute |]
  end.
  split_and!; [reflexivity | by apply Hblank | exact Hexp].
Defined.

(** ** File names the web application accepts *)

Lemma contains_char (c : ascii) (s : string) :
  PyStr.contains (String c "") s = has_char c s.
Proof.
  induction s as [|a s IH]; [done |].
  simpl. rewrite IH, andb_true_r. by rewrite Ascii.eqb_sym.
Qed.

Lemma rfind_from_none (c : ascii) (s : string) : forall i last : Z,
  has_char c s = false -> OsPath.rfind_from c s i last = last.
Proof.
  induction s as [|a s IH]; intros i last Hs; [done |].
  simpl in *. apply orb_false_iff in Hs as [Ha Hs]. rewrite Ha. by apply IH.
Qed.

Lemma rfind_from_last (c : ascii) (a b : string) : forall i last : Z,
  has_char c b = false ->
  OsPath.rfind_from c (a ++ String c b) i last = (i + Z.of_nat (String.length a))%Z.
Proof.
  induction a as [|x a IH]; intros i last Hb.
  - change (OsPath.rfind_from c (String c b) i last = (i + 0)%Z). simpl.
    rewrite Ascii.eqb_refl, rfind_from_none by done. lia.
  - rewrite string_app_cons. simpl. rewrite IH by done. lia.
Qed.

Lemma has_char_last (c : ascii) (s : string) :
  has_char c s = true -> exists a b, s = a ++ String c b /\ has_char c b = false.
Proof.
  induction s as [|x s IH]; [done |]. simpl. intros Hs.
  destruct (has_char c s) eqn:Hrest.
  - destruct (IH eq_refl) as (a & b & -> & Hb). by exists (String x a), b.
  - rewrite orb_false_r in Hs. apply Ascii.eqb_eq in Hs as ->. by exists "", s.
Qed.

Lemma has_char_app (c : ascii) (a b : string) :
  has_char c (a ++ b) = has_char c a || has_char c b.
Proof.
  induction a as [|x a IH]; [done |].
  rewrite string_app_cons. simpl. by rewrite IH, orb_assoc.
Qed.

Lemma slice_to_app (a b : string) :
  OsPath.slice_to (a ++ b) (Z.of_nat (String.length a)) = a.
Proof.
  unfold OsPath.slice_to. rewrite Nat2Z.id.
  induction a as [|x a IH]; [by destruct b |].
  rewrite string_app_cons. simpl. by rewrite IH.
Qed.

Lemma substring_all (s : string) : String.substring 0 (String.length s) s = s.
Proof. induction s as [|x s IH]; [done |]. simpl. by rewrite IH. Qed.

Lemma slice_from_app (a b : string) :
  OsPath.slice_from (a ++ b) (Z.of_nat (String.length a)) = b.
Proof.
  unfold OsPath.slice_from. rewrite Nat2Z.id, string_length_app.
  replace (String.length a + String.length b - String.length a)%nat
    with (String.length b) by lia.
  induction a as [|x a IH]; [apply substring_all |].
  rewrite string_app_cons. simpl. exact IH.
Qed.

Lemma rsplit1_last (c : ascii) (a b : string) :
  has_char c b = false -> rsplit1 c (a ++ String c b) = [a; b].
Proof.
  intros Hb. unfold rsplit1, OsPath.rfind. rewrite rfind_from_last by done.
  replace (0 + Z.of_nat (String.length a) <? 0)%Z with false by (symmetry; apply Z.ltb_ge; lia).
  f_equal; [| f_equal].
  - rewrite Z.add_0_l. apply slice_to_app.
  - replace (a ++ String c b) with ((a ++ String c "") ++ b)
      by (by rewrite string_app_assoc).
    replace (0 + Z.of_nat (String.length a) + 1)%Z
      with (Z.of_nat (String.length (a ++ String c "")))
      by (rewrite string_length_app; simpl; lia).
    apply slice_from_app.
Qed.

(** X19. [allowed_file] accepts exactly the names that end in a dot
    followed by "pdf" or "txt" in any mix of cases; only the text after the
    last dot counts, and a name without a dot is refused without an
    exception. *)
Theorem allowed_file_spec (filename : string) :
  allowed_file filename = true <->
  exists stem ext,
    filename = stem ++ "." ++ ext
    /\ has_char "." ext = false
    /\ (PyStr.lower ext = "pdf" \/ PyStr.lower ext = "txt").
Proof.
  unfold allowed_file. rewrite contains_char. split.
  - intros [Hdot Hext]%andb_true_iff.
    apply has_char_last in Hdot as (a & b & -> & Hb).
    rewrite rsplit1_last in Hext by done.
    exists a, b. split_and!; [done | done |].
    simpl in Hext. rewrite orb_false_r in Hext.
    apply orb_true_iff in Hext as [H | H]; apply String.eqb_eq in H; auto.
  - intros (stem & ext & -> & Hext & Hlow).
    change (stem ++ "." ++ ext) with (stem ++ String "." ext).
    rewrite has_char_app. simpl. rewrite orb_true_r. simpl.
    rewrite rsplit1_last by done. simpl. rewrite orb_false_r.
    apply orb_true_iff. destruct Hlow as [-> | ->]; auto.
Qed.

Lemma allowed_file_inv (filename : string) :
  allowed_file filename = true ->
  exists stem ext,
    filename = stem ++ String "." ext
    /\ has_char "." ext = false
    /\ (PyStr.lower ext = "pdf" \/ PyStr.lower ext = "txt").
Proof.
  unfold allowed_file. rewrite contains_char.
  intros [Hdot Hext]%andb_true_iff.
  apply has_char_last in Hdot as (a & b & -> & Hb).
  rewrite rsplit1_last in Hext by done.
  exists a, b. split_and!; [done | done |].
  simpl in Hext. rewrite orb_false_r in Hext.
  apply orb_true_iff in Hext as [H | H]; apply String.eqb_eq in H; auto.
Qed.

Lemma splitext_of_name (dir stem ext : string) (c : ascii) (rest : string) :
  (dir = "" \/ exists d, dir = d ++ "/") ->
  stem = String c rest -> c <> "."%char ->
  has_char "/" stem = false -> has_char "/" ext = false -> has_char "." ext = false ->
  snd (OsPath.splitext (dir ++ stem ++ String "." ext)) = String "." ext.
Proof.
  intros Hdir Hstem Hc Hs1 Hs2 Hdot.
  set (p := dir ++ stem ++ String "." ext).
  assert (Hp : p = (dir ++ stem) ++ String "." ext) by (unfold p; by rewrite string_app_assoc).
  assert (Hdoti : OsPath.rfind "." p = Z.of_nat (String.length (dir ++ stem))).
  { unfold OsPath.rfind. rewrite Hp, rfind_from_last by done. lia. }
  assert (Hname : has_char "/" (stem ++ String "." ext) = false).
  { rewrite has_char_app. simpl. by rewrite Hs1, Hs2. }
  assert (Hsepi : (OsPath.rfind "/" p + 1)%Z = Z.of_nat (String.length dir)).
  { unfold OsPath.rfind, p. destruct Hdir as [-> | [d ->]].
    - change ("" ++ stem ++ String "." ext) with (stem ++ String "." ext).
      by rewrite rfind_from_none.
    - replace ((d ++ "/") ++ stem ++ String "." ext)
        with (d ++ String "/" (stem ++ String "." ext)) by (by rewrite string_app_assoc).
      rewrite rfind_from_last by done. rewrite string_length_app. simpl. lia. }
  unfold OsPath.splitext. fold p. rewrite Hdoti.
  rewrite string_length_app in *.
  assert (Hlen : (1 <= String.length stem)%nat) by (rewrite Hstem; simpl; lia).
  replace (OsPath.rfind "/" p <? Z.of_nat (String.length dir + String.length stem))%Z
    with true by (symmetry; apply Z.ltb_lt; lia).
  rewrite Hsepi.
  replace (OsPath.slice_from p (Z.of_nat (String.length dir)))
    with (stem ++ String "." ext) by (symmetry; apply slice_from_app).
  replace (Z.to_nat (Z.of_nat (String.length dir + String.length stem)
                     - Z.of_nat (String.length dir)))
    with (String.length stem) by lia.
  assert (Hhas : OsPath.has_name (stem ++ String "." ext) (String.length stem) = true).
  { rewrite Hstem, string_app_cons. simpl.
    by replace (Ascii.eqb c ".") with false by (symmetry; by apply Ascii.eqb_neq). }
  rewrite Hhas. simpl. rewrite Hp.
  replace (Z.of_nat (String.length dir + String.length stem))
    with (Z.of_nat (String.length (dir ++ stem))) by (by rewrite string_length_app).
  apply slice_from_app.
Qed.

Lemma lower_ext_no_slash (ext : string) :
  PyStr.lower ext = "pdf" \/ PyStr.lower ext = "txt" -> has_char "/" ext = false.
Proof.
  assert (Hc : forall c, PyStr.lower_char c <> "/"%char -> Ascii.eqb c "/" = false).
  { intros c Hne. apply Ascii.eqb_neq. intros ->. by apply Hne. }
  destruct ext as [|c1 [|c2 [|c3 [|c4 ext]]]]; simpl;
    intros [H | H]; try discriminate H; injection H as H1 H2 H3;
    rewrite !Hc; try done; congruence.
Qed.

(** X20. A file name that [allowed_file] accepts, without "/" and not
    starting with a dot, saved in the working directory or under a
    folder, is never dropped as an unsupported type by
    [extract_resume_text]: it goes to the PDF reader or to the text
    reader according to its extension, whatever the case of the letters. *)
Theorem allowed_file_reaches_reader (fs : Files) (dir name : string)
        (c : ascii) (rest : string)
        (Hdir : dir = "" \/ exists d, dir = d ++ "/")
        (Hname : name = String c rest)
        (Hc : c <> "."%char)
        (Hslash : has_char "/" name = false)
        (Hallowed : allowed_file name = true) :
  let ext := PyStr.lower (snd (OsPath.splitext (dir ++ name))) in
  (ext = ".pdf"
   /\ extract_resume_text fs (dir ++ name) = extract_text_from_pdf fs (dir ++ name))
  \/ (ext = ".txt"
      /\ extract_resume_text fs (dir ++ name) = extract_text_from_txt fs (dir ++ name)).
Proof.
  destruct (allowed_file_inv name Hallowed) as (stem & e & Heq & Hdot & Hlow).
  assert (Hstem : exists rest', stem = String c rest').
  { destruct stem as [|c' stem'].
    - simpl in Heq. rewrite Hname in Heq. injection Heq as -> _. done.
    - rewrite string_app_cons, Hname in Heq. injection Heq as <- _. by eexists. }
  destruct Hstem as [rest' Hstem].
  assert (Hs : has_char "/" stem = false /\ has_char "/" e = false).
  { rewrite Heq, has_char_app in Hslash. simpl in Hslash.
    apply orb_false_iff in Hslash as [? ?]. done. }
  destruct Hs as [Hs1 Hs2].
  pose proof (splitext_of_name dir stem e c rest' Hdir Hstem Hc Hs1 Hs2 Hdot) as Hext.
  rewrite <- Heq in Hext. simpl. unfold extract_resume_text. rewrite Hext.
  change (PyStr.lower (String "." e)) with (String "." (PyStr.lower e)).
  destruct Hlow as [-> | ->]; [left | right]; done.
Qed.

Lemma allowed_file_reaches_reader_witness :
  allowed_file "Resume.v2.PDF" = true
  /\ extract_resume_text Flat.disk "uploads/Resume.v2.PDF"
     = extract_text_from_pdf Flat.disk "uploads/Resume.v2.PDF"
  /\ allowed_file "cv.text" = false
  /\ allowed_file ".pdf" = true
  /\ PyStr.lower (snd (OsPath.splitext ".pdf")) = "".
Proof.
  destruct (allowed_file_reaches_reader Flat.disk "uploads/" "Resume.v2.PDF"
              "R" "esume.v2.PDF") as [[_ H] | [H _]].
  - right. by exists "uploads".
  - reflexivity.
  - done.
  - reflexivity.
  - reflexivity.
  - split_and!; [reflexivity | exact H | reflexivity | reflexivity | reflexivity].
  - by vm_compute in H.
Defined.

(** ** More on the text of a resume file *)

Lemma read_pages_all (pages : list string) : forall text : string,
  read_pages (Some <$> pages) text = text ++ join pages.
Proof.
  induction pages as [|t pages IH]; intros text; simpl.
  - by rewrite string_app_nil_r.
  - by rewrite IH, string_app_assoc.
Qed.

(** X21. From a PDF whose pages can all be read, the extracted text is
    the texts of the pages one after the other, in page order, stripped
    as a whole (not page by page); a PDF with blank pages only gives the
    empty string. *)
Theorem extract_text_from_pdf_readable (fs : Files) (pdf_path : string)
        (pages : list string)
        (Hopen : fitz_open fs pdf_path = Some (Some <$> pages)) :
  extract_text_from_pdf fs pdf_path = PyStr.strip (join pages)
  /\ (all_chars PyStr.isspace (join pages) = true ->
      extract_text_from_pdf fs pdf_path = "").
Proof.
  unfold extract_text_from_pdf. rewrite Hopen, read_pages_all.
  split; [done |]. apply strip_blank.
Qed.

Lemma extract_text_from_pdf_readable_witness :
  extract_text_from_pdf
    (mkFiles (fun _ => Some [Some " Python "; Some " developer "]) (fun _ => None)) "cv.pdf"
  = "Python  developer".
Proof.
  destruct (extract_text_from_pdf_readable
              (mkFiles (fun _ => Some [Some " Python "; Some " developer "]) (fun _ => None))
              "cv.pdf" [" Python "; " developer "]) as [H _]; [reflexivity |].
  rewrite H. reflexivity.
Defined.

Lemma rfind_from_app_none (c : ascii) (a b : string) : forall i last : Z,
  has_char c b = false ->
  OsPath.rfind_from c (a ++ b) i last = OsPath.rfind_from c a i last.
Proof.
  induction a as [|x a IH]; intros i last Hb.
  - change ("" ++ b) with b. by rewrite rfind_from_none.
  - rewrite string_app_cons. simpl. by apply IH.
Qed.

Lemma rfind_from_lt (c : ascii) (a : string) : forall i last : Z,
  (last < i)%Z -> (OsPath.rfind_from c a i last < i + Z.of_nat (String.length a))%Z.
Proof.
  induction a as [|x a IH]; intros i last Hl; simpl; [lia |].
  assert (H : ((if Ascii.eqb x c then i else last) < i + 1)%Z) by (destruct (Ascii.eqb x c); lia).
  specialize (IH (i + 1)%Z _ H). lia.
Qed.

(** X22. The extension is read from the last component of the path only:
    when the file name itself has no dot, the text is empty whatever the
    folders are called, also for a folder named like "cv.pdf". *)
Theorem extract_resume_text_no_extension (fs : Files) (dir name : string)
        (Hdir : dir = "" \/ exists d, dir = d ++ "/")
        (Hdot : has_char "." name = false)
        (Hslash : has_char "/" name = false) :
  snd (OsPath.splitext (dir ++ name)) = ""
  /\ extract_resume_text fs (dir ++ name) = "".
Proof.
  assert (Hext : snd (OsPath.splitext (dir ++ name)) = "").
  { unfold OsPath.splitext, OsPath.rfind.
    rewrite (rfind_from_app_none "." dir name) by done.
    destruct Hdir as [-> | [d ->]].
    - change ("" ++ name) with name. simpl. by rewrite rfind_from_none.
    - replace ((d ++ "/") ++ name) with (d ++ String "/" name)
        by (by rewrite string_app_assoc).
      rewrite (rfind_from_last "/" d name) by done.
      rewrite (rfind_from_app_none "." d "/") by done.
      pose proof (rfind_from_lt "." d 0 (-1) ltac:(lia)) as Hlt.
      replace (0 + Z.of_nat (String.length d) <? OsPath.rfind_from "." d 0 (-1))%Z
        with false by (symmetry; apply Z.ltb_ge; lia).
      done. }
  split; [exact Hext |]. unfold extract_resume_text. by rewrite Hext.
Qed.

Lemma extract_resume_text_no_extension_witness :
  extract_resume_text Flat.disk "cv.pdf/resume" = ""
  /\ extract_resume_text Flat.disk "README" = "".
Proof.
  split.
  - apply (extract_resume_text_no_extension Flat.disk "cv.pdf/" "resume");
      [right; by exists "cv.pdf" | reflexivity | reflexivity].
  - apply (extract_resume_text_no_extension Flat.disk "" "README");
      [by left | reflexivity | reflexivity].
Defined.

(** ** Matched skills, label by label *)

Lemma elem_of_job_skills_of (cell : option string) (s : string) :
  s ∈ job_skills_of cell <->
  exists label, label ∈ PyStr.split "," (py_str cell)
                /\ PyStr.lower (PyStr.strip label) = s.
Proof.
  unfold job_skills_of. rewrite elem_of_list_to_set, list_elem_of_In, in_map_iff.
  split; intros (label & H1 & H2); exists label.
  - by rewrite list_elem_of_In.
  - by rewrite <- list_elem_of_In.
Qed.

Section MatchedLabels.

Context `{B : Backend}.

(** X23. A skill is among the matched skills of a result exactly when it
    is a vocabulary entry that occurs in the lowercased resume and is the
    stripped, lowercased form of one of the comma-separated labels of the
    job; the list has no repetition, however often a label is written. *)
Theorem matched_skills_spec (self : JobRecommender) (resume_text : string)
        (top_k : Z) (w w' : World) (results : list Rec.t) (r : Rec.t) (s : string)
        (Hrun : recommend self resume_text top_k w = (Ok results, w'))
        (Hr : r ∈ results) :
  (s ∈ Rec.matched_skills r <->
   s ∈ COMMON_SKILLS
   /\ (exists a b, PyStr.lower resume_text = a ++ s ++ b)
   /\ (exists label, label ∈ PyStr.split "," (py_str (Rec.skills r))
                     /\ PyStr.lower (PyStr.strip label) = s))
  /\ NoDup (Rec.matched_skills r).
Proof.
  destruct (recommend_result_inv self resume_text top_k w w' results r Hrun Hr)
    as (scores0 & indices0 & rank & idx & score & row & _ & _ & _ & _ & _ & _ & ->).
  simpl. split; [| apply NoDup_elements].
  rewrite elem_of_elements, elem_of_intersection, elem_of_list_to_set.
  rewrite elem_of_extract_skills, elem_of_job_skills_of. tauto.
Qed.

End MatchedLabels.

Lemma matched_skills_spec_witness :
  let text := "react and rust, css" in
  let out := recommend (B := Flat.backend) Flat.engine text 1 Flat.world0 in
  exists r,
    results_of out !! 0%nat = Some r
    /\ Rec.skills r = Some "React, CSS , rust"
    /\ "css" ∈ Rec.matched_skills r.
Proof.
  intros text out.
  assert (Hrun : out = (Ok (results_of out), snd out)).
  { apply flat_run_returns; by vm_compute. }
  eexists. split; [vm_compute; reflexivity |].
  match goal with |- Rec.skills ?r = _ /\ _ =>
    destruct (matched_skills_spec (B := Flat.backend) Flat.engine text 1
                Flat.world0 (snd out) (results_of out) r "css" Hrun)
      as ([_ Hin] & _)
  end.
  - apply list_elem_of_lookup_2 with 0%nat. vm_compute. reflexivity.
  - split; [reflexivity |]. apply Hin. split_and!.
    + compute_done.
    + by exists "react and rust, ", "".
    + exists " CSS ". split; [| reflexivity].
      apply list_elem_of_further, list_elem_of_here.
Defined.

(** ** No years without the word "experience" *)

Lemma matches_Str (word : string) : forall s g s' g',
  matches (Str word) s g s' g' -> s = word ++ s'.
Proof.
  induction word as [|c word IH]; intros s g s' g' Hm; simpl in Hm.
  - by inversion Hm.
  - inversion Hm as [| | | | |r1 r2 s0 g0 s1 g1 s2 g2 Hc Hrest|]; subst.
    inversion Hc as [|p c' s0 g0 Hp| | | | |]; subst.
    apply Ascii.eqb_eq in Hp as <-. apply IH in Hrest as ->. done.
Qed.

Lemma mentions_here (word : string) (r : re) s g s' g' :
  matches (Cat (Str word) r) s g s' g' -> exists a b, s = a ++ word ++ b.
Proof.
  intros Hm. inversion Hm as [| | | | |r1 r2 s0 g0 s1 g1 s2 g2 Hw _|]; subst.
  apply matches_Str in Hw as ->. by exists "", s1.
Qed.

Lemma mentions_later (word : string) (r1 r2 : re) :
  (forall s g s' g', matches r2 s g s' g' -> exists a b, s = a ++ word ++ b) ->
  forall s g s' g', matches (Cat r1 r2) s g s' g' -> exists a b, s = a ++ word ++ b.
Proof.
  intros H2 s g s' g' Hm.
  inversion Hm as [| | | | |r1' r2' s0 g0 s1 g1 s2 g2 Hfirst Hrest|]; subst.
  apply matches_suffix in Hfirst as [u ->].
  apply H2 in Hrest as (a & b & ->). exists (u ++ a), b. by rewrite string_app_assoc.
Qed.

Lemma patterns_mention_experience (p : re) :
  p ∈ patterns ->
  forall s g s' g', matches p s g s' g' -> exists a b, s = a ++ "experience" ++ b.
Proof.
  unfold patterns. rewrite !elem_of_cons, elem_of_nil.
  intros [-> | [-> | [-> | []]]].
  - unfold pattern_years_experience. cbn [Seq].
    do 7 apply mentions_later. intros s g s' g'. apply mentions_here.
  - unfold pattern_experience_years. cbn [Seq].
    intros s g s' g'. apply mentions_here.
  - unfold pattern_yrs_experience. cbn [Seq].
    do 7 apply mentions_later. intros s g s' g'. apply mentions_here.
Qed.

Lemma first_match_none (ps : list re) (text_lower : string) :
  (forall p, p ∈ ps -> search p text_lower = None) -> first_match ps text_lower = Some 0%Z.
Proof.
  induction ps as [|p ps IH]; intros Hnone; simpl; [done |].
  rewrite (Hnone p) by left. apply IH. intros q Hq. apply Hnone. by right.
Qed.

(** X24. Every pattern asks for the word "experience": for a text that
    does not contain it, in any case of the letters, the result is 0,
    whatever numbers of years the text states. *)
Theorem extract_experience_years_needs_word (text : string)
        (Hword : PyStr.contains "experience" (PyStr.lower text) = false) :
  extract_experience_years text = Some 0%Z.
Proof.
  unfold extract_experience_years. apply first_match_none. intros p Hp.
  destruct (search p (PyStr.lower text)) as [m|] eqn:Hs; [| done].
  apply search_sound in Hs as (before & rest & after & Heq & Hm).
  apply (patterns_mention_experience p Hp) in Hm as (a & b & ->).
  assert (Hc : PyStr.contains "experience" (PyStr.lower text) = true).
  { apply contains_spec. exists (before ++ a), b. by rewrite Heq, string_app_assoc. }
  congruence.
Qed.

Lemma extract_experience_years_needs_word_witness :
  extract_experience_years "10 years of Python, 5 yrs of Java" = Some 0%Z.
Proof. apply extract_experience_years_needs_word. reflexivity. Defined.

Lemma recommend_result_fields_witness :
  let out := recommend (B := Flat.backend) Flat.engine Flat.resume 6 Flat.world0 in
  exists r row,
    results_of out !! 2%nat = Some r
    /\ row ∈ load_jobs Flat.rows
    /\ Rec.job_id r = job_id (csv row)
    /\ Rec.title r = title (csv row)
    /\ Rec.job_id r = 2%Z.
Proof.
  intros out.
  assert (Hrun : out = (Ok (results_of out), snd out)).
  { apply flat_run_returns; by vm_compute. }
  eexists.
  match goal with |- exists row, results_of out !! 2%nat = Some ?r /\ _ =>
    assert (Hr : results_of out !! 2%nat = Some r) by (vm_compute; reflexivity);
    destruct (recommend_result_fields (B := Flat.backend) Flat.engine Flat.resume 6
                Flat.world0 (snd out) (results_of out) r Hrun)
      as (_ & _ & _ & row & _ & _ & _ & _ & Hrow & Hid & Htitle & _)
  end.
  - by apply list_elem_of_lookup_2 in Hr.
  - exists row. split_and!; [exact Hr | exact Hrow | exact Hid | exact Htitle | reflexivity].
Defined.
